(** * Constrained fruit voting: the allocation engine of [Aimess.jsx]

    A shallow embedding of [getAvailableFruits],
    [findOptimalPlanWithConstraints] and the summary computed in the
    [useEffect] hook of the component [ConstrainedFruitVoting], with the
    event handlers that edit the users' ballots ([updateUserSelection],
    [addNewUser], [removeUser], [resetAllVotes], [quickFillRandom]), the
    page state they drive, and the figures shown on the page
    ([getChartData], [getTotalVotes], [calculateSatisfactionScore]). *)

From Stdlib Require Import List String Ascii Arith Lia Bool.
From Stdlib Require Import Sorting.Sorted Permutation Relations.
Import ListNotations.
Open Scope string_scope.
Open Scope nat_scope.

(** ** Catalogs: [days], [fruits], [meals] *)

Inductive day := Monday | Tuesday | Wednesday | Thursday | Friday | Saturday.
Inductive fruit :=
  Apple | Banana | Orange | Mango | Grapes | Strawberry | Cherry | Peach | Pear | Kiwi.
Inductive meal := Lunch | Dinner.

Definition days : list day := [Monday; Tuesday; Wednesday; Thursday; Friday; Saturday].
Definition fruits : list fruit :=
  [Apple; Banana; Orange; Mango; Grapes; Strawberry; Cherry; Peach; Pear; Kiwi].
Definition meals : list meal := [Lunch; Dinner].

Definition day_eqb (a b : day) : bool :=
  match a, b with
  | Monday, Monday | Tuesday, Tuesday | Wednesday, Wednesday
  | Thursday, Thursday | Friday, Friday | Saturday, Saturday => true
  | _, _ => false
  end.

Definition meal_eqb (a b : meal) : bool :=
  match a, b with
  | Lunch, Lunch | Dinner, Dinner => true
  | _, _ => false
  end.

(** Position of a fruit in [fruits] (the insertion order of the vote
    objects, hence the order of [Object.entries]). *)
Definition fruit_index (f : fruit) : nat :=
  match f with
  | Apple => 0 | Banana => 1 | Orange => 2 | Mango => 3 | Grapes => 4
  | Strawberry => 5 | Cherry => 6 | Peach => 7 | Pear => 8 | Kiwi => 9
  end.

Definition fruit_eqb (a b : fruit) : bool := Nat.eqb (fruit_index a) (fruit_index b).

(** [days.indexOf(day)] *)
Definition day_index (d : day) : nat :=
  match d with
  | Monday => 0 | Tuesday => 1 | Wednesday => 2
  | Thursday => 3 | Friday => 4 | Saturday => 5
  end.

(** [=== ] on a fruit and an optional fruit read from the plan
    ([undefined] and [null] never equal a fruit name). *)
Definition fruit_opt_eqb (f : fruit) (o : option fruit) : bool :=
  match o with Some g => fruit_eqb f g | None => false end.

(** ** Decimal rendering used by the template literals *)

Fixpoint string_of_uint (u : Decimal.uint) : string :=
  match u with
  | Decimal.Nil => ""
  | Decimal.D0 u => String "0" (string_of_uint u)
  | Decimal.D1 u => String "1" (string_of_uint u)
  | Decimal.D2 u => String "2" (string_of_uint u)
  | Decimal.D3 u => String "3" (string_of_uint u)
  | Decimal.D4 u => String "4" (string_of_uint u)
  | Decimal.D5 u => String "5" (string_of_uint u)
  | Decimal.D6 u => String "6" (string_of_uint u)
  | Decimal.D7 u => String "7" (string_of_uint u)
  | Decimal.D8 u => String "8" (string_of_uint u)
  | Decimal.D9 u => String "9" (string_of_uint u)
  end.

Definition show_nat (n : nat) : string := string_of_uint (Nat.to_uint n).

(** ** Users and their selections

    [users[name][day][meal]] is either the empty string (no selection) or a
    fruit name: [None] or [Some f].  The object [users] is a list of
    (name, ballot) pairs in key order. *)

Definition ballot := day -> meal -> option fruit.
Definition users_t := list (string * ballot).

Fixpoint lookup_user (us : users_t) (name : string) : option ballot :=
  match us with
  | [] => None
  | (n, b) :: rest => if String.eqb n name then Some b else lookup_user rest name
  end.

(** [users[targetUser]?.[day]?.[meal]] *)
Definition user_sel (us : users_t) (u : string) (d : day) (m : meal) : option fruit :=
  match lookup_user us u with Some b => b d m | None => None end.

(** ** [getAvailableFruits(targetUser, targetDay, targetMeal)] *)

Definition getAvailableFruits (us : users_t) (targetUser : string)
    (targetDay : day) (targetMeal : meal) : list fruit :=
  (* this user's current selections, the target slot excluded *)
  let userFruitCount :=
    fold_left (fun cnt d =>
      fold_left (fun (cnt : fruit -> nat) m =>
        if negb (day_eqb d targetDay && meal_eqb m targetMeal) then
          match user_sel us targetUser d m with
          | Some f => fun g => if fruit_eqb g f then S (cnt g) else cnt g
          | None => cnt
          end
        else cnt) meals cnt) days (fun _ => 0) in
  let sameDayOtherMeal := match targetMeal with Lunch => Dinner | Dinner => Lunch end in
  let sameDaySelection := user_sel us targetUser targetDay sameDayOtherMeal in
  let dayIndex := day_index targetDay in
  let previousDay := if 0 <? dayIndex then nth_error days (dayIndex - 1) else None in
  let nextDay := if dayIndex <? List.length days - 1 then nth_error days (dayIndex + 1) else None in
  let adjacentDayFruits :=
    (match previousDay with
    | Some pd => flat_map (fun m => match user_sel us targetUser pd m with
                                    | Some f => [f] | None => [] end) meals
    | None => []
    end ++ (* list append *)
    match nextDay with
    | Some nd => flat_map (fun m => match user_sel us targetUser nd m with
                                    | Some f => [f] | None => [] end) meals
    | None => []
    end)%list in
  filter (fun f =>
    if fruit_opt_eqb f sameDaySelection then false
    else if existsb (fruit_eqb f) adjacentDayFruits then false
    else if 2 <=? userFruitCount f then false
    else true) fruits.

(** ** [findOptimalPlanWithConstraints()] *)

(** Step 1: [voteCounts[day][meal][fruit]], all zero, then one increment per
    user selection, users in [Object.values] order. *)
Definition vc_t := day -> meal -> fruit -> nat.

Definition vc_incr (vc : vc_t) (d : day) (m : meal) (f : fruit) : vc_t :=
  fun d' m' f' =>
    if day_eqb d' d && meal_eqb m' m && fruit_eqb f' f then S (vc d' m' f') else vc d' m' f'.

Definition countVotes (us : users_t) : vc_t :=
  fold_left (fun vc (u : string * ballot) =>
    fold_left (fun vc d =>
      fold_left (fun vc m =>
        match snd u d m with
        | Some f => vc_incr vc d m f
        | None => vc
        end) meals vc) days vc) us (fun _ _ _ => 0).

(** [voteCounts[day][meal]] as its entry list: keys were inserted in
    catalog order, so [Object.entries] lists them in that order. *)
Definition mealVotesOf (vc : vc_t) (d : day) (m : meal) : list (fruit * nat) :=
  map (fun f => (f, vc d m f)) fruits.

(** [mealVotes[selectedFruit] || 0] *)
Fixpoint votes_of (entries : list (fruit * nat)) (f : fruit) : nat :=
  match entries with
  | [] => 0
  | (g, v) :: rest => if fruit_eqb g f then v else votes_of rest f
  end.

(** [.sort(([,a], [,b]) => b - a)]: [Array.prototype.sort] is stable and the
    comparator is consistent, so the result is the unique stable ordering by
    descending count; a stable insertion sort computes it. An element is put
    in front of the first element whose count is not larger. *)
Fixpoint insert_desc (x : fruit * nat) (l : list (fruit * nat)) : list (fruit * nat) :=
  match l with
  | [] => [x]
  | y :: rest => if snd y <=? snd x then x :: y :: rest else y :: insert_desc x rest
  end.

Definition sort_desc (l : list (fruit * nat)) : list (fruit * nat) :=
  fold_right insert_desc [] l.

(** [sortedCandidates] *)
Definition sortedCandidates (mealVotes : list (fruit * nat)) : list (fruit * nat) :=
  filter (fun c => 0 <? snd c) (sort_desc mealVotes).

Record assignment := mkAssignment {
  a_fruit : option fruit;
  a_votes : nat;
  a_totalUsers : nat;
  a_reason : string;
  a_hasViolation : bool
}.

Record violation := mkViolation {
  v_day : day;
  v_meal : meal;
  v_fruit : fruit;
  v_reason : string;
  v_votes : nat
}.

(** [plan[day][meal]], as the list of recorded slots in recording order. *)
Definition plan_t := list ((day * meal) * assignment).

Fixpoint plan_lookup (p : plan_t) (d : day) (m : meal) : option assignment :=
  match p with
  | [] => None
  | ((d', m'), a) :: rest =>
      if day_eqb d' d && meal_eqb m' m then Some a else plan_lookup rest d m
  end.

(** [plan[day]?.[meal]?.fruit] *)
Definition plan_fruit (p : plan_t) (d : day) (m : meal) : option fruit :=
  match plan_lookup p d m with Some a => a_fruit a | None => None end.

(** The returned object [{ plan, fruitUsage, violations }], which is also
    the state threaded through the loops ([fruitUsage] is
    [fruitUsageCount]). *)
Record result := mkResult {
  plan : plan_t;
  fruitUsage : fruit -> nat;
  violations : list violation
}.

Definition init_result : result := mkResult [] (fun _ => 0) [].

(** The three checks of the candidate loop, with the [canSelect] /
    [violationReason] flags of the source: [None] when [canSelect] stays
    true, [Some violationReason] otherwise. *)
Definition constraintCheck (p : plan_t) (fruitUsageCount : fruit -> nat)
    (d : day) (previousDay : option day) (m : meal) (f : fruit) : option string :=
  (* constraint 1a: no same fruit for lunch and dinner on the same day *)
  let currentDaySelections :=
    flat_map (fun m' => if meal_eqb m' m then []
                        else match plan_fruit p d m' with
                             | Some g => [g] | None => [] end) meals in
  let '(canSelect, violationReason) :=
    if existsb (fruit_eqb f) currentDaySelections then (false, "Same day rule")
    else (true, "") in
  (* constraint 1b: no consecutive days *)
  let '(canSelect, violationReason) :=
    match previousDay with
    | Some pd =>
        if canSelect && (fruit_opt_eqb f (plan_fruit p pd Lunch)
                         || fruit_opt_eqb f (plan_fruit p pd Dinner))
        then (false, "Consecutive days rule") else (canSelect, violationReason)
    | None => (canSelect, violationReason)
    end in
  (* constraint 2: max 2 times per week *)
  let '(canSelect, violationReason) :=
    if canSelect && (2 <=? fruitUsageCount f)
    then (false, "Max 2 times per week rule") else (canSelect, violationReason) in
  if canSelect then None else Some violationReason.

(** [for (const [fruit, votes] of sortedCandidates)]: stops at the first
    fruit that can be selected; every fruit rejected before that is pushed
    on [violations] (the guard [!selectedFruit] holds there, since
    [selectedFruit] is only set right before [break]). *)
Fixpoint selectCandidate (p : plan_t) (fruitUsageCount : fruit -> nat)
    (d : day) (previousDay : option day) (m : meal)
    (cands : list (fruit * nat)) (vs : list violation)
    : option (fruit * string) * list violation :=
  match cands with
  | [] => (None, vs)
  | (f, votes) :: rest =>
      match constraintCheck p fruitUsageCount d previousDay m f with
      | None => (Some (f, show_nat votes ++ " votes, no violations"), vs)
      | Some violationReason =>
          selectCandidate p fruitUsageCount d previousDay m rest
            (vs ++ [mkViolation d m f violationReason votes])%list
      end
  end.

(** The body of [meals.forEach(meal => ...)] for one slot. *)
Definition processMeal (mealVotes : list (fruit * nat)) (totalUsers : nat)
    (d : day) (previousDay : option day) (s : result) (m : meal) : result :=
  let cands := sortedCandidates mealVotes in
  let '(found, vs) :=
    selectCandidate (plan s) (fruitUsage s) d previousDay m cands (violations s) in
  let '(selectedFruit, selectionReason, hasViolation) :=
    match found with
    | Some (f, r) => (Some f, r, false)
    | None =>
        (* forced violation: the most voted candidate *)
        match cands with
        | (f, v) :: _ => (Some f, "Forced selection (" ++ show_nat v ++ " votes)", true)
        | [] => (None, "", false)
        end
    end in
  match selectedFruit with
  | Some f =>
      mkResult
        (plan s ++ [((d, m), mkAssignment (Some f) (votes_of mealVotes f) totalUsers
                                          selectionReason hasViolation)])%list
        (fun g => if fruit_eqb g f then S (fruitUsage s g) else fruitUsage s g)
        vs
  | None =>
      mkResult
        (plan s ++ [((d, m), mkAssignment None 0 totalUsers "No selection" false)])%list
        (fruitUsage s) vs
  end.

(** [dayIndex > 0 ? days[dayIndex - 1] : null] *)
Definition previousDayOf (dayIndex : nat) : option day :=
  if 0 <? dayIndex then nth_error days (dayIndex - 1) else None.

(** Step 2: [days.forEach((day, dayIndex) => ... meals.forEach(...))]. *)
Definition planDays (vc : vc_t) (totalUsers : nat) (s : result) : result :=
  fold_left (fun s (di : nat * day) =>
    let '(dayIndex, d) := di in
    let previousDay := previousDayOf dayIndex in
    fold_left (fun s m => processMeal (mealVotesOf vc d m) totalUsers d previousDay s m)
      meals s)
    (combine (seq 0 (List.length days)) days) s.

Definition findOptimalPlanWithConstraints (us : users_t) : result :=
  planDays (countVotes us) (List.length us) init_result.

(** The [useEffect] hook: [overUsed] and the [summary] string. *)
Definition overUsed (r : result) : list fruit :=
  map fst (filter (fun e => 2 <? snd e) (map (fun f => (f, fruitUsage r f)) fruits)).

Definition summary (r : result) : string :=
  show_nat (List.length (violations r)) ++ " constraint conflicts, "
  ++ show_nat (List.length (overUsed r)) ++ " fruits over-used".

(** ** Derived notions used in the statements *)

(** The canonical slots, in the order of the two nested loops. *)
Definition slot_order : list (day * meal) :=
  flat_map (fun d => map (fun m => (d, m)) meals) days.

(** Number of recorded slots whose fruit is [f]. *)
Definition plan_count (p : plan_t) (f : fruit) : nat :=
  List.length (filter (fun e => fruit_opt_eqb f (a_fruit (snd e))) p).

(** The day before [d] in [days]. *)
Definition prevDay (d : day) : option day :=
  match d with
  | Monday => None | Tuesday => Some Monday | Wednesday => Some Tuesday
  | Thursday => Some Wednesday | Friday => Some Thursday | Saturday => Some Friday
  end.

(** Sample ballots. *)
Definition empty_ballot : ballot := fun _ _ => None.
Definition one_vote (d0 : day) (m0 : meal) (f0 : fruit) : ballot :=
  fun d m => if day_eqb d d0 && meal_eqb m m0 then Some f0 else None.
Definition two_votes (d0 : day) (m0 m1 : meal) (f0 : fruit) : ballot :=
  fun d m => if day_eqb d d0 && (meal_eqb m m0 || meal_eqb m m1) then Some f0 else None.

Definition scenario2 : users_t :=
  [("User 1", two_votes Monday Lunch Dinner Apple); ("User 2", two_votes Monday Lunch Dinner Apple)].

(** One slot of the flattened loops: the previous day of [days.indexOf(d)]. *)
Definition slotStep (vc : vc_t) (totalUsers : nat) (s : result) (k : day * meal) : result :=
  processMeal (mealVotesOf vc (fst k) (snd k)) totalUsers (fst k) (prevDay (fst k)) s (snd k).

(** Order of the slots: [k1] is processed before [k2]. *)
Definition slot_index (k : day * meal) : nat :=
  2 * day_index (fst k) + match snd k with Lunch => 0 | Dinner => 1 end.

Definition slot_before (k1 k2 : day * meal) : Prop := slot_index k1 < slot_index k2.

(** Candidate order fixed by the spec: more votes first, ties in catalog order. *)
Definition cand_before (c1 c2 : fruit * nat) : Prop :=
  snd c2 < snd c1 \/ (snd c1 = snd c2 /\ fruit_index (fst c1) < fruit_index (fst c2)).

(** ** Notions for the per-user filter *)

Definition other_meal (m : meal) : meal := match m with Lunch => Dinner | Dinner => Lunch end.

(** [d'] is the day right before or right after [d]. *)
Definition adjacent_day (d d' : day) : Prop := prevDay d = Some d' \/ prevDay d' = Some d.

(** How often the user selected [f] outside the slot [(d, m)]. *)
Definition own_count (us : users_t) (u : string) (d : day) (m : meal) (f : fruit) : nat :=
  List.length (filter (fun k => negb (day_eqb (fst k) d && meal_eqb (snd k) m)
                                && fruit_opt_eqb f (user_sel us u (fst k) (snd k))) slot_order).

(** The claimed filter, following the wording of the spec: the scheduler's
    three rules (previous day only for adjacency) applied to the user's own
    selections, the target slot left out of the count. *)
Definition availableFruits_schedulerRules (us : users_t) (u : string) (d : day) (m : meal)
    : list fruit :=
  filter (fun f =>
    negb (fruit_opt_eqb f (user_sel us u d (other_meal m))) &&
    negb (match prevDay d with
          | Some q => fruit_opt_eqb f (user_sel us u q Lunch) || fruit_opt_eqb f (user_sel us u q Dinner)
          | None => false
          end) &&
    (own_count us u d m f <? 2)) fruits.

(** ** Notions used by the invariants and the statements *)

Definition reason_of (o : option string) : string :=
  match o with Some r => r | None => "" end.

(** The other meal of the same day already holds [f]. *)
Definition sameDayHit (p : plan_t) (d : day) (m : meal) (f : fruit) : Prop :=
  exists m', m' <> m /\ plan_fruit p d m' = Some f.

(** The previous day (when there is one) already holds [f]. *)
Definition adjacentHit (p : plan_t) (previousDay : option day) (f : fruit) : Prop :=
  exists q, previousDay = Some q /\
            (plan_fruit p q Lunch = Some f \/ plan_fruit p q Dinner = Some f).

(** [fruitUsageCount] agrees with the plan. *)
Definition usage_matches (r : result) : Prop :=
  forall g, fruitUsage r g = plan_count (plan r) g.

(** The cap holds for every fruit with no flagged assignment. *)
Definition cap_ok (p : plan_t) : Prop :=
  forall f, plan_count p f <= 2 \/
            exists k a, In (k, a) p /\ a_fruit a = Some f /\ a_hasViolation a = true.

(** Two slots that the same-day or the consecutive-days rule relates. *)
Definition conflict (k1 k2 : day * meal) : Prop :=
  k1 <> k2 /\ (fst k1 = fst k2 \/ prevDay (fst k2) = Some (fst k1)).

Definition spacing_ok (p : plan_t) : Prop :=
  forall k1 k2 a1 a2 f, conflict k1 k2 ->
    plan_lookup p (fst k1) (snd k1) = Some a1 ->
    plan_lookup p (fst k2) (snd k2) = Some a2 ->
    a_fruit a1 = Some f -> a_fruit a2 = Some f ->
    a_hasViolation a1 = true \/ a_hasViolation a2 = true.

Definition run_inv (r : result) : Prop :=
  usage_matches r /\ cap_ok (plan r) /\ spacing_ok (plan r).

(** Two vote tables agree on the slots selected by [S]. *)
Definition agree_on (S : day -> meal -> bool) (vc1 vc2 : vc_t) : Prop :=
  forall d m f, S d m = true -> vc1 d m f = vc2 d m f.

Definition monday_tuesday_apple : ballot :=
  fun d m => match d, m with
             | Monday, Lunch | Tuesday, Lunch => Some Apple
             | _, _ => None
             end.

(** ** User management: [initializeUsers], [updateUserSelection],
    [addNewUser], [removeUser], [resetAllVotes] *)

(** [`User ${i}`] *)
Definition user_name (i : nat) : string := "User " ++ show_nat i.

(** [initializeUsers()]: [User 1] .. [User 4], every selection [''] *)
Definition initializeUsers : users_t :=
  map (fun i => (user_name i, empty_ballot)) (seq 1 4).

(** [{ ...obj, [key]: value }]: a key already there keeps its place and
    gets the new value, a new key goes last. *)
Fixpoint users_set (us : users_t) (key : string) (value : ballot) : users_t :=
  match us with
  | [] => [(key, value)]
  | (n, b) :: rest =>
      if String.eqb n key then (n, value) :: rest else (n, b) :: users_set rest key value
  end.

(** [{ ...b, [day]: { ...b[day], [meal]: v } }] *)
Definition ballot_set (b : ballot) (d : day) (m : meal) (v : option fruit) : ballot :=
  fun d' m' => if day_eqb d' d && meal_eqb m' m then v else b d' m'.

(** [updateUserSelection(user, day, meal, fruit)]; the value of a
    [<select>] is [''] ([None]) or a fruit name.  [prev[user][day]] throws a
    [TypeError] when [user] is not a key: [None]. *)
Definition updateUserSelection (us : users_t) (user : string) (d : day) (m : meal)
    (v : option fruit) : option users_t :=
  match lookup_user us user with
  | Some b => Some (users_set us user (ballot_set b d m v))
  | None => None
  end.

(** [addNewUser()] *)
Definition addNewUser (us : users_t) : users_t :=
  let newUserNum := List.length us + 1 in
  let newUserName := user_name newUserNum in
  users_set us newUserName empty_ballot.

(** [const { [userToRemove]: removed, ...remainingUsers } = users] *)
Definition users_remove (us : users_t) (key : string) : users_t :=
  filter (fun p => negb (String.eqb (fst p) key)) us.

(** [removeUser(userToRemove)]: the new [users] and the new [selectedUser]
    ([None] stands for [undefined], the first key of an empty object). *)
Definition removeUser (us : users_t) (selectedUser : option string) (userToRemove : string)
    : users_t * option string :=
  if 1 <? List.length us then
    let remainingUsers := users_remove us userToRemove in
    (remainingUsers,
     match selectedUser with
     | Some s => if String.eqb s userToRemove then hd_error (map fst remainingUsers)
                 else selectedUser
     | None => selectedUser
     end)
  else (us, selectedUser).

(** [resetAllVotes()]; [confirmed] is the answer to [window.confirm]. *)
Definition resetAllVotes (confirmed : bool) (us : users_t) (selectedUser : option string)
    : users_t * option string :=
  if confirmed then (initializeUsers, Some "User 1") else (us, selectedUser).

(** ** [quickFillRandom()]

    [newUsers = { ...users }] copies the top level only: the assignment
    [newUsers[userName][day][meal] = randomFruit] writes into the day
    objects that [users] shares, so each later call of [getAvailableFruits]
    (which reads [users]) sees the fruits drawn before it.  One store is
    therefore threaded through the three loops.  [rnd userName d m n] is
    [Math.floor(Math.random() * n)] drawn for that slot; an index out of
    range would store [undefined], read back as no selection. *)
Definition quickFillSlot (rnd : string -> day -> meal -> nat -> nat) (userName : string)
    (us : users_t) (d : day) (m : meal) : users_t :=
  let availableFruits := getAvailableFruits us userName d m in
  if 0 <? List.length availableFruits then
    let randomFruit :=
      nth_error availableFruits (rnd userName d m (List.length availableFruits)) in
    match lookup_user us userName with
    | Some b => users_set us userName (ballot_set b d m randomFruit)
    | None => us (* not taken: [userName] is a key *)
    end
  else us.

Definition quickFillRandom (rnd : string -> day -> meal -> nat -> nat) (users : users_t)
    : users_t :=
  fold_left (fun us userName =>
    fold_left (fun us d =>
      fold_left (fun us m => quickFillSlot rnd userName us d m) meals us) days us)
    (map fst users) users.

(** ** Statistics: [getChartData], [getTotalVotes], [calculateSatisfactionScore] *)

Definition fruit_name (f : fruit) : string :=
  match f with
  | Apple => "Apple" | Banana => "Banana" | Orange => "Orange" | Mango => "Mango"
  | Grapes => "Grapes" | Strawberry => "Strawberry" | Cherry => "Cherry"
  | Peach => "Peach" | Pear => "Pear" | Kiwi => "Kiwi"
  end.

Record chartItem := mkChartItem {
  c_fruit : string;
  c_lunch : nat;
  c_dinner : nat;
  c_total : nat
}.

(** [getChartData()] over [optimalPlan]; [fruit.slice(0, 6)] *)
Definition getChartData (optimalPlan : plan_t) : list chartItem :=
  let data :=
    map (fun f =>
      let '(lunchCount, dinnerCount) :=
        fold_left (fun (acc : nat * nat) d =>
          let '(lunchCount, dinnerCount) := acc in
          (if fruit_opt_eqb f (plan_fruit optimalPlan d Lunch) then S lunchCount else lunchCount,
           if fruit_opt_eqb f (plan_fruit optimalPlan d Dinner) then S dinnerCount else dinnerCount))
          days (0, 0) in
      mkChartItem (substring 0 6 (fruit_name f)) lunchCount dinnerCount
                  (lunchCount + dinnerCount)) fruits in
  filter (fun item => 0 <? c_total item) data.

(** [getTotalVotes()] *)
Definition getTotalVotes (users : users_t) : nat :=
  fold_left (fun total (user : string * ballot) =>
    fold_left (fun total d =>
      fold_left (fun total m =>
        match snd user d m with Some _ => S total | None => total end) meals total) days total)
    users 0.

(** The two counters of [calculateSatisfactionScore()]:
    [(totalPossibleVotes, satisfiedVotes)].  The score is then
    [Math.round(satisfiedVotes / totalPossibleVotes * 100)] in floating
    point (0 when [totalPossibleVotes] is 0), which is not modelled here. *)
Definition satisfactionCounts (users : users_t) (optimalPlan : plan_t) : nat * nat :=
  fold_left (fun (acc : nat * nat) (user : string * ballot) =>
    fold_left (fun acc d =>
      fold_left (fun (acc : nat * nat) m =>
        let '(totalPossibleVotes, satisfiedVotes) := acc in
        match snd user d m with
        | Some userVote =>
            let finalSelection := plan_fruit optimalPlan d m in
            (S totalPossibleVotes,
             if fruit_opt_eqb userVote finalSelection then S satisfiedVotes else satisfiedVotes)
        | None => (totalPossibleVotes, satisfiedVotes)
        end) meals acc) days acc)
    users (0, 0).

(** ** The component as a state machine over [users] and [selectedUser]

    The events the page offers: a user button ([setSelectedUser] on a key),
    a [<select>] (its value is [''] or one of the options
    [getAvailableFruits(selectedUser, day, meal)]), Add User, a remove
    button, Reset All and Quick Fill. *)

Record ui_state := mkUi {
  ui_users : users_t;
  ui_selected : option string
}.

Definition ui_init : ui_state := mkUi initializeUsers (Some "User 1").

Inductive ui_step : ui_state -> ui_state -> Prop :=
| step_select_user : forall us sel u,
    In u (map fst us) -> ui_step (mkUi us sel) (mkUi us (Some u))
| step_select_fruit : forall us u d m v us',
    (v = None \/ exists f, v = Some f /\ In f (getAvailableFruits us u d m)) ->
    updateUserSelection us u d m v = Some us' ->
    ui_step (mkUi us (Some u)) (mkUi us' (Some u))
| step_add_user : forall us sel, ui_step (mkUi us sel) (mkUi (addNewUser us) sel)
| step_remove_user : forall us sel u,
    In u (map fst us) ->
    ui_step (mkUi us sel) (mkUi (fst (removeUser us sel u)) (snd (removeUser us sel u)))
| step_reset : forall us sel c,
    ui_step (mkUi us sel) (mkUi (fst (resetAllVotes c us sel)) (snd (resetAllVotes c us sel)))
| step_quick_fill : forall us sel rnd,
    ui_step (mkUi us sel) (mkUi (quickFillRandom rnd us) sel).

(** ** The per-user rules on one ballot *)

(** How often the ballot selects [f]. *)
Definition ballot_count (b : ballot) (f : fruit) : nat :=
  List.length (filter (fun k => fruit_opt_eqb f (b (fst k) (snd k))) slot_order).

(** The three rules of the page on a single user's ballot: no fruit twice
    on a day or on two consecutive days, and no fruit more than twice. *)
Definition ballot_ok (b : ballot) : Prop :=
  (forall k1 k2 f, conflict k1 k2 ->
     b (fst k1) (snd k1) = Some f -> b (fst k2) (snd k2) <> Some f) /\
  (forall f, ballot_count b f <= 2).

(** The same rules restricted to the slots of [P]. *)
Definition ok_on (P : list (day * meal)) (b : ballot) : Prop :=
  (forall k1 k2 f, In k1 P -> In k2 P -> conflict k1 k2 ->
     b (fst k1) (snd k1) = Some f -> b (fst k2) (snd k2) <> Some f) /\
  (forall f, List.length (filter (fun k => fruit_opt_eqb f (b (fst k) (snd k))) P) <= 2).

Definition ui_ok (s : ui_state) : Prop :=
  NoDup (map fst (ui_users s)) /\ ui_users s <> [] /\
  (exists u, ui_selected s = Some u /\ In u (map fst (ui_users s))) /\
  (forall u b, In (u, b) (ui_users s) -> ballot_ok b).

(** The slots other than [k] that share its day or lie on a day next to it. *)
Definition adjacent_dayb (d d' : day) : bool :=
  match prevDay d with Some p => day_eqb p d' | None => false end ||
  match prevDay d' with Some p => day_eqb p d | None => false end.

Definition isNbr (k k' : day * meal) : bool :=
  negb (day_eqb (fst k') (fst k) && meal_eqb (snd k') (snd k)) &&
  (day_eqb (fst k') (fst k) || adjacent_dayb (fst k) (fst k')).

Definition isRest (k k' : day * meal) : bool :=
  negb (day_eqb (fst k') (fst k) && meal_eqb (snd k') (snd k)) && negb (isNbr k k').

(** Total of a vote table, and the votes it gives to the fruits of a plan. *)
Definition vc_total (vc : vc_t) : nat :=
  list_sum (map (fun k => list_sum (map (vc (fst k) (snd k)) fruits)) slot_order).

Definition vc_on_plan (pf : day -> meal -> option fruit) (vc : vc_t) : nat :=
  list_sum (map (fun k => match pf (fst k) (snd k) with
                          | Some f => vc (fst k) (snd k) f
                          | None => 0
                          end) slot_order).

(** ** Basic facts *)

Open Scope list_scope.

Lemma day_eqb_spec (a b : day) : day_eqb a b = true <-> a = b.
Proof. destruct a, b; simpl; split; congruence. Qed.

Lemma meal_eqb_spec (a b : meal) : meal_eqb a b = true <-> a = b.
Proof. destruct a, b; simpl; split; congruence. Qed.

Lemma fruit_index_inj (a b : fruit) : fruit_index a = fruit_index b -> a = b.
Proof. destruct a, b; simpl; congruence. Qed.

Lemma fruit_eqb_spec (a b : fruit) : fruit_eqb a b = true <-> a = b.
Proof.
  unfold fruit_eqb; rewrite Nat.eqb_eq; split;
    [apply fruit_index_inj | intros ->; reflexivity].
Qed.

Lemma fruit_eqb_refl (a : fruit) : fruit_eqb a a = true.
Proof. apply fruit_eqb_spec; reflexivity. Qed.

Lemma fruit_opt_eqb_spec (f : fruit) (o : option fruit) :
  fruit_opt_eqb f o = true <-> o = Some f.
Proof.
  destruct o as [g|]; simpl; [rewrite fruit_eqb_spec; split; congruence | split; congruence].
Qed.

Lemma in_fruits (f : fruit) : In f fruits.
Proof. destruct f; simpl; tauto. Qed.

Lemma planDays_slots (vc : vc_t) (n : nat) (s : result) :
  planDays vc n s = fold_left (slotStep vc n) slot_order s.
Proof. reflexivity. Qed.

Lemma plan_lookup_app (p q : plan_t) (d : day) (m : meal) :
  plan_lookup (p ++ q) d m =
  match plan_lookup p d m with Some a => Some a | None => plan_lookup q d m end.
Proof.
  induction p as [|[[d' m'] a] p IH]; simpl; [reflexivity|].
  destruct (day_eqb d' d && meal_eqb m' m); [reflexivity | exact IH].
Qed.

Lemma plan_lookup_In (p : plan_t) (d : day) (m : meal) (a : assignment) :
  plan_lookup p d m = Some a -> In ((d, m), a) p.
Proof.
  induction p as [|[[d' m'] a'] p IH]; simpl; [discriminate|].
  destruct (day_eqb d' d) eqn:Ed, (meal_eqb m' m) eqn:Em; simpl; intros H;
    try (right; exact (IH H)).
  apply day_eqb_spec in Ed; apply meal_eqb_spec in Em; subst; injection H as ->; left; reflexivity.
Qed.

Lemma plan_lookup_None (p : plan_t) (d : day) (m : meal) :
  ~ In (d, m) (map fst p) -> plan_lookup p d m = None.
Proof.
  induction p as [|[[d' m'] a'] p IH]; simpl; [reflexivity|].
  intros Hn.
  destruct (day_eqb d' d) eqn:Ed, (meal_eqb m' m) eqn:Em; simpl; try (apply IH; tauto).
  apply day_eqb_spec in Ed; apply meal_eqb_spec in Em; subst; tauto.
Qed.

Lemma plan_lookup_snoc (p : plan_t) (d d' : day) (m m' : meal) (a : assignment) :
  ~ In (d, m) (map fst p) ->
  plan_lookup (p ++ [((d, m), a)]) d' m' =
  if day_eqb d d' && meal_eqb m m' then Some a else plan_lookup p d' m'.
Proof.
  intros Hn; rewrite plan_lookup_app; simpl.
  destruct (day_eqb d d') eqn:Ed, (meal_eqb m m') eqn:Em; simpl;
    try (destruct (plan_lookup p d' m'); reflexivity).
  apply day_eqb_spec in Ed; apply meal_eqb_spec in Em; subst.
  rewrite (plan_lookup_None p d' m' Hn); reflexivity.
Qed.

(** ** The constraint checks *)

Lemma constraintCheck_cases (p : plan_t) (u : fruit -> nat) (d : day)
    (pd : option day) (m : meal) (f : fruit) :
  constraintCheck p u d pd m f =
  if existsb (fruit_eqb f)
       (flat_map (fun m' => if meal_eqb m' m then []
                            else match plan_fruit p d m' with
                                 | Some g => [g] | None => [] end) meals)
  then Some "Same day rule"
  else if match pd with
          | Some q => fruit_opt_eqb f (plan_fruit p q Lunch)
                      || fruit_opt_eqb f (plan_fruit p q Dinner)
          | None => false
          end
  then Some "Consecutive days rule"
  else if 2 <=? u f then Some "Max 2 times per week rule" else None.
Proof.
  unfold constraintCheck.
  destruct (existsb _ _); destruct pd as [q|];
    try destruct (fruit_opt_eqb f (plan_fruit p q Lunch)
                  || fruit_opt_eqb f (plan_fruit p q Dinner));
    destruct (2 <=? u f); reflexivity.
Qed.

Lemma sameDayHit_reflect (p : plan_t) (d : day) (m : meal) (f : fruit) :
  existsb (fruit_eqb f)
    (flat_map (fun m' => if meal_eqb m' m then []
                         else match plan_fruit p d m' with
                              | Some g => [g] | None => [] end) meals) = true
  <-> sameDayHit p d m f.
Proof.
  unfold sameDayHit; split.
  - destruct m; simpl.
    + destruct (plan_fruit p d Dinner) as [g|] eqn:E; simpl; [|discriminate].
      rewrite orb_false_r, fruit_eqb_spec; intros <-.
      exists Dinner; split; [discriminate | exact E].
    + destruct (plan_fruit p d Lunch) as [g|] eqn:E; simpl; [|discriminate].
      rewrite orb_false_r, fruit_eqb_spec; intros <-.
      exists Lunch; split; [discriminate | exact E].
  - intros [m' [Hm' Hf]]; destruct m, m'; try congruence; simpl; rewrite Hf; simpl;
      rewrite fruit_eqb_refl; reflexivity.
Qed.

Lemma adjacentHit_reflect (p : plan_t) (pd : option day) (f : fruit) :
  match pd with
  | Some q => fruit_opt_eqb f (plan_fruit p q Lunch) || fruit_opt_eqb f (plan_fruit p q Dinner)
  | None => false
  end = true <-> adjacentHit p pd f.
Proof.
  unfold adjacentHit; destruct pd as [q|].
  - rewrite orb_true_iff, !fruit_opt_eqb_spec; split.
    + intros H; exists q; split; [reflexivity | exact H].
    + intros [q' [Hq H]]; injection Hq as <-; exact H.
  - split; [discriminate | intros [q [Hq _]]; discriminate].
Qed.

(** ** The candidate walk *)

Lemma selectCandidate_decomp (p : plan_t) (u : fruit -> nat) (d : day)
    (pd : option day) (m : meal) (cands : list (fruit * nat)) (vs : list violation) :
  exists pre post,
    cands = pre ++ post /\
    Forall (fun c => constraintCheck p u d pd m (fst c) <> None) pre /\
    snd (selectCandidate p u d pd m cands vs) =
      vs ++ map (fun c => mkViolation d m (fst c)
                            (reason_of (constraintCheck p u d pd m (fst c))) (snd c)) pre /\
    match post with
    | [] => fst (selectCandidate p u d pd m cands vs) = None
    | (f, v) :: _ =>
        constraintCheck p u d pd m f = None /\
        fst (selectCandidate p u d pd m cands vs) =
          Some (f, (show_nat v ++ " votes, no violations")%string)
    end.
Proof.
  revert vs; induction cands as [|[f v] rest IH]; intros vs.
  - exists [], []; simpl; rewrite app_nil_r; repeat split; constructor.
  - simpl. destruct (constraintCheck p u d pd m f) as [r|] eqn:Ec.
    + destruct (IH (vs ++ [mkViolation d m f r v])) as (pre & post & Hc & Hf & Hs & Hp).
      exists ((f, v) :: pre), post; repeat split.
      * simpl; rewrite Hc; reflexivity.
      * constructor; [simpl; rewrite Ec; discriminate | exact Hf].
      * rewrite Hs; simpl; rewrite Ec; simpl; rewrite <- app_assoc; reflexivity.
      * exact Hp.
    + exists [], ((f, v) :: rest); simpl; rewrite app_nil_r; repeat split; try constructor.
      exact Ec.
Qed.

Lemma selectCandidate_found (p : plan_t) (u : fruit -> nat) (d : day)
    (pd : option day) (m : meal) (cands : list (fruit * nat)) (vs vs' : list violation)
    (f : fruit) (r : string) :
  selectCandidate p u d pd m cands vs = (Some (f, r), vs') ->
  exists v, In (f, v) cands /\ constraintCheck p u d pd m f = None /\
            r = (show_nat v ++ " votes, no violations")%string.
Proof.
  intros H.
  destruct (selectCandidate_decomp p u d pd m cands vs) as (pre & post & Hc & _ & _ & Hp).
  rewrite H in Hp; simpl in Hp.
  destruct post as [|[g v] rest]; [discriminate|].
  destruct Hp as [Hg Hs]; injection Hs as -> ->.
  exists v; repeat split; [rewrite Hc; apply in_or_app; right; left; reflexivity | exact Hg].
Qed.

(** ** One slot *)

Lemma processMeal_spec (mv : list (fruit * nat)) (n : nat) (d : day) (pd : option day)
    (s : result) (m : meal) :
  exists a,
    plan (processMeal mv n d pd s m) = plan s ++ [((d, m), a)] /\
    (forall g, fruitUsage (processMeal mv n d pd s m) g =
               fruitUsage s g + if fruit_opt_eqb g (a_fruit a) then 1 else 0) /\
    (a_hasViolation a = false -> forall f, a_fruit a = Some f ->
       constraintCheck (plan s) (fruitUsage s) d pd m f = None).
Proof.
  unfold processMeal.
  destruct (selectCandidate (plan s) (fruitUsage s) d pd m (sortedCandidates mv) (violations s))
    as [found vs] eqn:E.
  destruct found as [[f r]|].
  - eexists; simpl; split; [reflexivity|]; split.
    + intros g; simpl; destruct (fruit_eqb g f); lia.
    + intros _ g Hg; injection Hg as <-.
      destruct (selectCandidate_found _ _ _ _ _ _ _ _ _ _ E) as (v & _ & Hc & _); exact Hc.
  - destruct (sortedCandidates mv) as [|[f v] rest].
    + eexists; simpl; split; [reflexivity|]; split.
      * intros g; simpl; lia.
      * discriminate.
    + eexists; simpl; split; [reflexivity|]; split.
      * intros g; simpl; destruct (fruit_eqb g f); lia.
      * discriminate.
Qed.

Lemma constraintCheck_None (p : plan_t) (u : fruit -> nat) (d : day)
    (pd : option day) (m : meal) (f : fruit) :
  constraintCheck p u d pd m f = None ->
  ~ sameDayHit p d m f /\ ~ adjacentHit p pd f /\ u f < 2.
Proof.
  rewrite constraintCheck_cases.
  rewrite <- sameDayHit_reflect, <- adjacentHit_reflect.
  destruct (existsb _ _); [discriminate|].
  destruct (match pd with Some q => _ | None => false end); [discriminate|].
  destruct (2 <=? u f) eqn:E; [discriminate|].
  apply Nat.leb_gt in E; intros _; repeat split; (discriminate || lia).
Qed.

(** ** Invariants of the allocation run *)

Lemma plan_count_snoc (p : plan_t) (k : day * meal) (a : assignment) (g : fruit) :
  plan_count (p ++ [(k, a)]) g =
  plan_count p g + if fruit_opt_eqb g (a_fruit a) then 1 else 0.
Proof.
  unfold plan_count; rewrite filter_app, length_app; simpl.
  destruct (fruit_opt_eqb g (a_fruit a)); reflexivity.
Qed.

Lemma prevDay_index (x y : day) : prevDay x = Some y -> day_index x = S (day_index y).
Proof. destruct x, y; simpl; congruence. Qed.

Lemma slot_before_day (k1 k2 : day * meal) :
  slot_before k1 k2 -> day_index (fst k1) <= day_index (fst k2).
Proof.
  unfold slot_before, slot_index; destruct (snd k1), (snd k2); lia.
Qed.

Lemma lookup_key (p : plan_t) (d : day) (m : meal) (a : assignment) :
  plan_lookup p d m = Some a -> In (d, m) (map fst p).
Proof.
  intros H; apply plan_lookup_In in H; apply in_map_iff; exists ((d, m), a); auto.
Qed.

Lemma plan_fruit_of (p : plan_t) (d : day) (m : meal) (a : assignment) (f : fruit) :
  plan_lookup p d m = Some a -> a_fruit a = Some f -> plan_fruit p d m = Some f.
Proof. unfold plan_fruit; intros -> ->; reflexivity. Qed.

Lemma slotStep_inv (vc : vc_t) (n : nat) (s : result) (k : day * meal)
    (P : list (day * meal)) :
  map fst (plan s) = P -> (forall k', In k' P -> slot_before k' k) -> run_inv s ->
  map fst (plan (slotStep vc n s k)) = P ++ [k] /\ run_inv (slotStep vc n s k).
Proof.
  intros HP Hbefore (Hu & Hcap & Hsp); subst P.
  destruct k as [d m].
  destruct (processMeal_spec (mealVotesOf vc d m) n d (prevDay d) s m)
    as (a & Hplan & Husage & Hlegal).
  unfold slotStep, run_inv, usage_matches; simpl; rewrite Hplan.
  assert (Hnew : ~ In (d, m) (map fst (plan s))).
  { intros Hin; apply Hbefore in Hin; unfold slot_before in Hin; lia. }
  split; [rewrite map_app; reflexivity|].
  split; [|split].
  - intros g; rewrite Husage, plan_count_snoc, Hu; reflexivity.
  - intros f; rewrite plan_count_snoc.
    destruct (fruit_opt_eqb f (a_fruit a)) eqn:Ef.
    + apply fruit_opt_eqb_spec in Ef.
      destruct (a_hasViolation a) eqn:Ev.
      * right; exists (d, m), a; split; [apply in_or_app; right; left; reflexivity|auto].
      * destruct (constraintCheck_None _ _ _ _ _ _ (Hlegal eq_refl f Ef)) as (_ & _ & Hlt).
        left; rewrite <- Hu; lia.
    + destruct (Hcap f) as [Hle | (k' & a' & Hin & Hf & Hv)]; [left; lia|].
      right; exists k', a'; split; [apply in_or_app; left; exact Hin | auto].
  - intros [d1 m1] [d2 m2] a1 a2 f Hc H1 H2 Hf1 Hf2; simpl in *.
    rewrite (plan_lookup_snoc _ _ _ _ _ _ Hnew) in H1.
    rewrite (plan_lookup_snoc _ _ _ _ _ _ Hnew) in H2.
    destruct (day_eqb d d1 && meal_eqb m m1) eqn:E1;
    destruct (day_eqb d d2 && meal_eqb m m2) eqn:E2.
    + apply andb_true_iff in E1, E2.
      destruct E1 as [E1d E1m], E2 as [E2d E2m].
      apply day_eqb_spec in E1d, E2d; apply meal_eqb_spec in E1m, E2m; subst.
      destruct Hc as [Hne _]; congruence.
    + (* the new slot is the first one of the pair *)
      apply andb_true_iff in E1; destruct E1 as [E1d E1m].
      apply day_eqb_spec in E1d; apply meal_eqb_spec in E1m; subst.
      injection H1 as <-.
      destruct (a_hasViolation a) eqn:Ev; [left; reflexivity|].
      destruct (constraintCheck_None _ _ _ _ _ _ (Hlegal eq_refl f Hf1)) as (Hsd & _ & _).
      destruct Hc as [Hne [Hd | Hd]]; simpl in Hd.
      * subst d2; exfalso; apply Hsd; exists m2; split.
        -- intros ->; apply Hne; reflexivity.
        -- exact (plan_fruit_of _ _ _ _ _ H2 Hf2).
      * exfalso.
        pose proof (Hbefore _ (lookup_key _ _ _ _ H2)) as Hb.
        apply slot_before_day in Hb; apply prevDay_index in Hd; simpl in *; lia.
    + (* the new slot is the second one of the pair *)
      apply andb_true_iff in E2; destruct E2 as [E2d E2m].
      apply day_eqb_spec in E2d; apply meal_eqb_spec in E2m; subst.
      injection H2 as <-.
      destruct (a_hasViolation a) eqn:Ev; [right; reflexivity|].
      destruct (constraintCheck_None _ _ _ _ _ _ (Hlegal eq_refl f Hf2)) as (Hsd & Hadj & _).
      destruct Hc as [Hne [Hd | Hd]]; simpl in Hd.
      * subst d1; exfalso; apply Hsd; exists m1; split.
        -- intros ->; apply Hne; reflexivity.
        -- exact (plan_fruit_of _ _ _ _ _ H1 Hf1).
      * exfalso; apply Hadj; exists d1; split; [exact Hd|].
        destruct m1; [left | right]; exact (plan_fruit_of _ _ _ _ _ H1 Hf1).
    + exact (Hsp (d1, m1) (d2, m2) a1 a2 f Hc H1 H2 Hf1 Hf2).
Qed.

Lemma StronglySorted_app_before {A : Type} (R : A -> A -> Prop) (P L : list A) (k : A) :
  StronglySorted R (P ++ k :: L) -> forall x, In x P -> R x k.
Proof.
  induction P as [|y P IH]; simpl; [contradiction|].
  intros H x [<- | Hx]; apply StronglySorted_inv in H; destruct H as [H Hf].
  - rewrite Forall_forall in Hf; apply Hf, in_or_app; right; left; reflexivity.
  - exact (IH H x Hx).
Qed.

Lemma fold_slotStep_inv (vc : vc_t) (n : nat) (L : list (day * meal)) :
  forall P s, StronglySorted slot_before (P ++ L) ->
    map fst (plan s) = P -> run_inv s ->
    map fst (plan (fold_left (slotStep vc n) L s)) = P ++ L /\
    run_inv (fold_left (slotStep vc n) L s).
Proof.
  induction L as [|k L IH]; intros P s Hs HP Hi; simpl.
  - rewrite app_nil_r; auto.
  - destruct (slotStep_inv vc n s k P HP (StronglySorted_app_before _ _ _ _ Hs) Hi)
      as [HP' Hi'].
    replace (P ++ k :: L) with ((P ++ [k]) ++ L) in Hs |- *
      by (rewrite <- app_assoc; reflexivity).
    exact (IH (P ++ [k]) _ Hs HP' Hi').
Qed.

Lemma slot_order_sorted : StronglySorted slot_before slot_order.
Proof.
  unfold slot_order; simpl.
  repeat (apply SSorted_cons || apply SSorted_nil || apply Forall_cons || apply Forall_nil
          || (unfold slot_before, slot_index; simpl; lia)).
Qed.

Lemma init_inv : run_inv init_result.
Proof.
  unfold run_inv, usage_matches, cap_ok, spacing_ok; simpl; repeat split.
  - intros f; left; unfold plan_count; simpl; lia.
  - intros k1 k2 a1 a2 f _ H; discriminate.
Qed.

Lemma findOptimal_inv (us : users_t) :
  map fst (plan (findOptimalPlanWithConstraints us)) = slot_order /\
  run_inv (findOptimalPlanWithConstraints us).
Proof.
  unfold findOptimalPlanWithConstraints; rewrite planDays_slots.
  exact (fold_slotStep_inv _ _ slot_order [] init_result slot_order_sorted eq_refl init_inv).
Qed.

Lemma consecutive_prevDay (i : nat) (d1 d2 : day) :
  nth_error days i = Some d1 -> nth_error days (S i) = Some d2 -> prevDay d2 = Some d1.
Proof.
  intros H1 H2.
  destruct i as [|[|[|[|[|[|i]]]]]]; simpl in *;
    try (injection H1 as <-; injection H2 as <-; reflexivity); try discriminate.

Qed.

(** ** Candidate order *)

Lemma insert_desc_perm (x : fruit * nat) (l : list (fruit * nat)) :
  Permutation (insert_desc x l) (x :: l).
Proof.
  induction l as [|y l IH]; simpl; [reflexivity|].
  destruct (snd y <=? snd x); [reflexivity|].
  rewrite IH; apply perm_swap.
Qed.

Lemma sort_desc_perm (l : list (fruit * nat)) : Permutation (sort_desc l) l.
Proof.
  induction l as [|x l IH]; simpl; [reflexivity|].
  rewrite insert_desc_perm, IH; reflexivity.
Qed.

Lemma cand_before_trans (a b c : fruit * nat) :
  cand_before a b -> cand_before b c -> cand_before a c.
Proof. unfold cand_before; lia. Qed.

Lemma cand_before_irrefl (a : fruit * nat) : ~ cand_before a a.
Proof. unfold cand_before; lia. Qed.

Lemma insert_desc_sorted (x : fruit * nat) (l : list (fruit * nat)) :
  StronglySorted cand_before l ->
  (forall y, In y l -> fruit_index (fst x) < fruit_index (fst y)) ->
  StronglySorted cand_before (insert_desc x l).
Proof.
  induction l as [|y l IH]; simpl; intros Hs Hlt.
  - repeat constructor.
  - apply StronglySorted_inv in Hs; destruct Hs as [Hs Hy].
    destruct (snd y <=? snd x) eqn:E.
    + apply Nat.leb_le in E.
      assert (Hxy : cand_before x y).
      { specialize (Hlt y (or_introl eq_refl)); unfold cand_before; lia. }
      constructor; [constructor; assumption|].
      constructor; [exact Hxy|].
      rewrite Forall_forall in Hy |- *; intros z Hz.
      exact (cand_before_trans _ _ _ Hxy (Hy z Hz)).
    + apply Nat.leb_gt in E.
      constructor; [apply IH; [exact Hs | intros z Hz; apply Hlt; right; exact Hz]|].
      rewrite Forall_forall in Hy |- *; intros z Hz.
      apply (Permutation_in _ (insert_desc_perm x l)) in Hz; destruct Hz as [<- | Hz].
      * unfold cand_before; lia.
      * exact (Hy z Hz).
Qed.

Lemma sort_desc_sorted (l : list (fruit * nat)) :
  StronglySorted (fun a b => fruit_index (fst a) < fruit_index (fst b)) l ->
  StronglySorted cand_before (sort_desc l).
Proof.
  induction l as [|x l IH]; simpl; intros Hs; [constructor|].
  apply StronglySorted_inv in Hs; destruct Hs as [Hs Hx].
  apply insert_desc_sorted; [exact (IH Hs)|].
  intros y Hy; apply (Permutation_in _ (sort_desc_perm l)) in Hy.
  rewrite Forall_forall in Hx; exact (Hx y Hy).
Qed.

Lemma StronglySorted_filter_keep {A : Type} (R : A -> A -> Prop) (p : A -> bool) (l : list A) :
  StronglySorted R l -> StronglySorted R (filter p l).
Proof.
  induction l as [|x l IH]; simpl; intros Hs; [constructor|].
  apply StronglySorted_inv in Hs; destruct Hs as [Hs Hx].
  destruct (p x); [|exact (IH Hs)].
  constructor; [exact (IH Hs)|].
  rewrite Forall_forall in Hx |- *; intros y Hy; apply filter_In in Hy; exact (Hx y (proj1 Hy)).
Qed.

Lemma mealVotesOf_catalog_order (vc : vc_t) (d : day) (m : meal) :
  StronglySorted (fun a b => fruit_index (fst a) < fruit_index (fst b)) (mealVotesOf vc d m).
Proof.
  unfold mealVotesOf; simpl.
  repeat (apply SSorted_cons || apply SSorted_nil || apply Forall_cons || apply Forall_nil
          || (simpl; lia)).
Qed.

Lemma sortedCandidates_sorted (vc : vc_t) (d : day) (m : meal) :
  StronglySorted cand_before (sortedCandidates (mealVotesOf vc d m)).
Proof.
  apply StronglySorted_filter_keep, sort_desc_sorted, mealVotesOf_catalog_order.
Qed.

Lemma sortedCandidates_In (vc : vc_t) (d : day) (m : meal) (f : fruit) (v : nat) :
  In (f, v) (sortedCandidates (mealVotesOf vc d m)) <-> v = vc d m f /\ 0 < v.
Proof.
  unfold sortedCandidates; rewrite filter_In.
  change (snd (f, v)) with v; rewrite Nat.ltb_lt.
  split.
  - intros [Hin Hv]; apply (Permutation_in _ (sort_desc_perm _)) in Hin.
    unfold mealVotesOf in Hin; apply in_map_iff in Hin.
    destruct Hin as (g & Hg & _); injection Hg as -> <-; auto.
  - intros [-> Hv]; split; [|exact Hv].
    apply (Permutation_in _ (Permutation_sym (sort_desc_perm _))).
    unfold mealVotesOf; apply in_map_iff; exists f; split; [reflexivity | apply in_fruits].
Qed.

Lemma strict_sorted_unique {A : Type} (R : A -> A -> Prop)
    (Htrans : forall a b c, R a b -> R b c -> R a c) (Hirr : forall a, ~ R a a) :
  forall l1 l2, StronglySorted R l1 -> StronglySorted R l2 ->
    (forall c, In c l1 <-> In c l2) -> l1 = l2.
Proof.
  induction l1 as [|x l1 IH]; intros l2 H1 H2 Heq.
  - destruct l2 as [|y l2]; [reflexivity|].
    exfalso; apply (proj2 (Heq y)); left; reflexivity.
  - destruct l2 as [|y l2]; [exfalso; apply (proj1 (Heq x)); left; reflexivity|].
    apply StronglySorted_inv in H1, H2.
    destruct H1 as [H1 F1], H2 as [H2 F2].
    rewrite Forall_forall in F1, F2.
    assert (Hxy : x = y).
    { destruct (proj1 (Heq x) (or_introl eq_refl)) as [Hyx|Hx]; [symmetry; exact Hyx|].
      destruct (proj2 (Heq y) (or_introl eq_refl)) as [<-|Hy]; [reflexivity|].
      exfalso; exact (Hirr x (Htrans _ _ _ (F1 y Hy) (F2 x Hx))). }
    subst y; f_equal; apply IH; [exact H1 | exact H2|].
    intros c; split; intros Hc.
    + destruct (proj1 (Heq c) (or_intror Hc)) as [<-|]; [|assumption].
      exfalso; exact (Hirr x (F1 x Hc)).
    + destruct (proj2 (Heq c) (or_intror Hc)) as [<-|]; [|assumption].
      exfalso; exact (Hirr x (F2 x Hc)).
Qed.

Lemma votes_of_mealVotesOf (vc : vc_t) (d : day) (m : meal) (f : fruit) :
  votes_of (mealVotesOf vc d m) f = vc d m f.
Proof. destruct f; reflexivity. Qed.

(** ** Vote counts and their use *)

Lemma vc_incr_agree (S : day -> meal -> bool) (vc1 vc2 : vc_t) (d : day) (m : meal) (f : fruit) :
  agree_on S vc1 vc2 -> agree_on S (vc_incr vc1 d m f) (vc_incr vc2 d m f).
Proof.
  unfold agree_on, vc_incr; intros H d' m' f' Hs.
  destruct (_ && _); rewrite (H d' m' f' Hs); reflexivity.
Qed.

Lemma vc_incr_outside (S : day -> meal -> bool) (vc : vc_t) (d : day) (m : meal) (f : fruit) :
  S d m = false -> agree_on S (vc_incr vc d m f) vc.
Proof.
  unfold agree_on, vc_incr; intros Hn d' m' f' Hs.
  destruct (day_eqb d' d) eqn:Ed, (meal_eqb m' m) eqn:Em; simpl; try reflexivity.
  apply day_eqb_spec in Ed; apply meal_eqb_spec in Em; subst; congruence.
Qed.

Lemma agree_trans (S : day -> meal -> bool) (a b c : vc_t) :
  agree_on S a b -> agree_on S b c -> agree_on S a c.
Proof. unfold agree_on; intros H1 H2 d m f Hs; rewrite H1, H2; auto. Qed.

Lemma agree_sym (S : day -> meal -> bool) (a b : vc_t) : agree_on S a b -> agree_on S b a.
Proof. unfold agree_on; intros H d m f Hs; symmetry; auto. Qed.

Lemma ballot_step_agree (S : day -> meal -> bool) (b1 b2 : ballot) (d : day) (m : meal)
    (vc1 vc2 : vc_t) :
  agree_on S vc1 vc2 -> (S d m = true -> b1 d m = b2 d m) ->
  agree_on S (match b1 d m with Some f => vc_incr vc1 d m f | None => vc1 end)
             (match b2 d m with Some f => vc_incr vc2 d m f | None => vc2 end).
Proof.
  intros Ha Hb; destruct (S d m) eqn:Hs.
  - rewrite (Hb eq_refl); destruct (b2 d m); [apply vc_incr_agree|]; exact Ha.
  - destruct (b1 d m), (b2 d m);
      repeat first [ apply agree_trans with (1 := vc_incr_outside _ _ _ _ _ Hs)
                   | apply agree_sym, agree_trans with (1 := vc_incr_outside _ _ _ _ _ Hs),
                       agree_sym
                   | exact Ha ].
Qed.

Lemma user_fold_agree (S : day -> meal -> bool) (b1 b2 : ballot) (vc1 vc2 : vc_t) :
  agree_on S vc1 vc2 -> (forall d m, S d m = true -> b1 d m = b2 d m) ->
  agree_on S
    (fold_left (fun vc d => fold_left (fun vc m =>
       match b1 d m with Some f => vc_incr vc d m f | None => vc end) meals vc) days vc1)
    (fold_left (fun vc d => fold_left (fun vc m =>
       match b2 d m with Some f => vc_incr vc d m f | None => vc end) meals vc) days vc2).
Proof.
  intros Ha Hb.
  assert (Hm : forall d ms w1 w2, agree_on S w1 w2 ->
    agree_on S
      (fold_left (fun vc m => match b1 d m with Some f => vc_incr vc d m f | None => vc end) ms w1)
      (fold_left (fun vc m => match b2 d m with Some f => vc_incr vc d m f | None => vc end) ms w2)).
  { intros d ms; induction ms as [|m ms IH]; intros w1 w2 Hw; simpl; [exact Hw|].
    exact (IH _ _ (ballot_step_agree S b1 b2 d m w1 w2 Hw (Hb d m))). }
  assert (Hd : forall ds w1 w2, agree_on S w1 w2 ->
    agree_on S
      (fold_left (fun vc d => fold_left (fun vc m =>
         match b1 d m with Some f => vc_incr vc d m f | None => vc end) meals vc) ds w1)
      (fold_left (fun vc d => fold_left (fun vc m =>
         match b2 d m with Some f => vc_incr vc d m f | None => vc end) meals vc) ds w2)).
  { intros ds; induction ds as [|d ds IH]; intros w1 w2 Hw; simpl; [exact Hw|].
    exact (IH _ _ (Hm d meals w1 w2 Hw)). }
  exact (Hd days vc1 vc2 Ha).
Qed.

Lemma countVotes_agree (S : day -> meal -> bool) (us us' : users_t) :
  Forall2 (fun u u' => forall d m, S d m = true -> snd u d m = snd u' d m) us us' ->
  agree_on S (countVotes us) (countVotes us').
Proof.
  unfold countVotes; intros H.
  assert (Hgen : forall w1 w2, agree_on S w1 w2 ->
    agree_on S
      (fold_left (fun vc (u : string * ballot) =>
         fold_left (fun vc d => fold_left (fun vc m =>
           match snd u d m with Some f => vc_incr vc d m f | None => vc end) meals vc) days vc)
         us w1)
      (fold_left (fun vc (u : string * ballot) =>
         fold_left (fun vc d => fold_left (fun vc m =>
           match snd u d m with Some f => vc_incr vc d m f | None => vc end) meals vc) days vc)
         us' w2)).
  { induction H as [|u u' us us' Hu _ IH]; intros w1 w2 Hw; simpl; [exact Hw|].
    exact (IH _ _ (user_fold_agree S (snd u) (snd u') w1 w2 Hw Hu)). }
  exact (Hgen _ _ (fun d m f _ => eq_refl)).
Qed.

(** With no selection at all, every count stays zero. *)
Lemma countVotes_empty (us : users_t) :
  (forall u, In u us -> forall d m, snd u d m = None) ->
  forall d m f, countVotes us d m f = 0.
Proof.
  intros H d m f.
  assert (Hall : Forall2 (fun u u' => forall d m, (fun _ _ => true) d m = true ->
                            snd u d m = snd u' d m)
                   us (map (fun u => (fst u, empty_ballot)) us)).
  { induction us as [|u us IH]; simpl; constructor.
    - intros d' m' _; simpl; apply H; left; reflexivity.
    - apply IH; intros u' Hu'; apply H; right; exact Hu'. }
  rewrite (countVotes_agree _ _ _ Hall d m f eq_refl).
  unfold countVotes.
  assert (Hid : forall l z, fold_left (fun vc (u : string * ballot) =>
         fold_left (fun vc d => fold_left (fun vc m =>
           match snd u d m with Some f => vc_incr vc d m f | None => vc end) meals vc) days vc)
         (map (fun u : string * ballot => (fst u, empty_ballot)) l) z = z).
  { intros l; induction l as [|u l IH]; intros z; [reflexivity|]; exact (IH z). }
  rewrite Hid; reflexivity.
Qed.

Lemma slotStep_congr (vc1 vc2 : vc_t) (n : nat) (s : result) (k : day * meal) :
  (forall f, vc1 (fst k) (snd k) f = vc2 (fst k) (snd k) f) ->
  slotStep vc1 n s k = slotStep vc2 n s k.
Proof.
  intros H; unfold slotStep.
  replace (mealVotesOf vc1 (fst k) (snd k)) with (mealVotesOf vc2 (fst k) (snd k));
    [reflexivity|].
  unfold mealVotesOf; apply map_ext; intros f; rewrite H; reflexivity.
Qed.

Lemma fold_slotStep_congr (vc1 vc2 : vc_t) (n : nat) (L : list (day * meal)) :
  forall s, (forall k, In k L -> forall f, vc1 (fst k) (snd k) f = vc2 (fst k) (snd k) f) ->
  fold_left (slotStep vc1 n) L s = fold_left (slotStep vc2 n) L s.
Proof.
  induction L as [|k L IH]; intros s H; simpl; [reflexivity|].
  rewrite (slotStep_congr vc1 vc2 n s k (H k (or_introl eq_refl))).
  apply IH; intros k' Hk'; apply H; right; exact Hk'.
Qed.

Lemma fold_plan_extends (vc : vc_t) (n : nat) (L : list (day * meal)) :
  forall s, exists extra, plan (fold_left (slotStep vc n) L s) = plan s ++ extra.
Proof.
  induction L as [|[d m] L IH]; intros s; simpl.
  - exists []; rewrite app_nil_r; reflexivity.
  - destruct (IH (slotStep vc n s (d, m))) as [extra Hx].
    destruct (processMeal_spec (mealVotesOf vc d m) n d (prevDay d) s m) as (a & Ha & _).
    exists ([((d, m), a)] ++ extra); rewrite Hx, app_assoc; unfold slotStep; simpl.
    rewrite Ha; reflexivity.
Qed.

Lemma lookup_of_key (p : plan_t) (d : day) (m : meal) :
  In (d, m) (map fst p) -> exists a, plan_lookup p d m = Some a.
Proof.
  induction p as [|[[d' m'] a'] p IH]; simpl; [contradiction|].
  intros Hin.
  destruct (day_eqb d' d) eqn:Ed, (meal_eqb m' m) eqn:Em; simpl; try (eexists; reflexivity);
    (destruct Hin as [Heq | Hin]; [injection Heq as -> ->; rewrite ?(proj2 (day_eqb_spec d d) eq_refl), ?(proj2 (meal_eqb_spec m m) eq_refl) in *; discriminate | exact (IH Hin)]).
Qed.

Lemma in_slot_order (d : day) (m : meal) : In (d, m) slot_order.
Proof. destruct d, m; simpl; tauto. Qed.

Lemma slot_order_split (d : day) :
  slot_order =
  filter (fun k => day_index (fst k) <=? day_index d) slot_order ++
  filter (fun k => negb (day_index (fst k) <=? day_index d)) slot_order.
Proof. destruct d; reflexivity. Qed.

(** Plans computed from ballots that agree up to day [d] agree on the slots
    up to day [d]. *)
Lemma plan_prefix_independent (us us' : users_t) (d : day) :
  Forall2 (fun u u' => forall d' m', day_index d' <= day_index d -> snd u d' m' = snd u' d' m')
    us us' ->
  forall d' m', day_index d' <= day_index d ->
  plan_lookup (plan (findOptimalPlanWithConstraints us)) d' m' =
  plan_lookup (plan (findOptimalPlanWithConstraints us')) d' m'.
Proof.
  intros H d' m' Hd'.
  set (S := fun (x : day) (_ : meal) => day_index x <=? day_index d).
  assert (HS : Forall2 (fun u u' => forall x y, S x y = true -> snd u x y = snd u' x y) us us').
  { eapply Forall2_impl; [|exact H]; intros u u' Hu x y Hxy; apply Hu, Nat.leb_le, Hxy. }
  pose proof (countVotes_agree S us us' HS) as Hagree.
  assert (Hl : List.length us = List.length us') by exact (Forall2_length H).
  unfold findOptimalPlanWithConstraints; rewrite Hl, !planDays_slots, (slot_order_split d), !fold_left_app.
  set (P := filter (fun k => day_index (fst k) <=? day_index d) slot_order).
  rewrite (fold_slotStep_congr (countVotes us) (countVotes us') _ P).
  2: { intros [x y] Hk f; apply filter_In in Hk; apply Hagree, (proj2 Hk). }
  set (s1 := fold_left (slotStep (countVotes us') (List.length us')) P init_result).
  assert (HP : map fst (plan s1) = P).
  { apply (fold_slotStep_inv _ _ P [] init_result); [|reflexivity|exact init_inv].
    apply StronglySorted_filter_keep, slot_order_sorted. }
  assert (Hin : In (d', m') (map fst (plan s1))).
  { rewrite HP; apply filter_In; split; [apply in_slot_order | apply Nat.leb_le, Hd']. }
  destruct (lookup_of_key _ _ _ Hin) as [a Ha].
  destruct (fold_plan_extends (countVotes us) (List.length us') (filter (fun k => negb (day_index (fst k) <=? day_index d)) slot_order) s1) as [e1 He1].
  destruct (fold_plan_extends (countVotes us') (List.length us') (filter (fun k => negb (day_index (fst k) <=? day_index d)) slot_order) s1) as [e2 He2].
  rewrite He1, He2, !plan_lookup_app, Ha; reflexivity.
Qed.

Lemma processMeal_violations (mv : list (fruit * nat)) (n : nat) (d : day) (pd : option day)
    (s : result) (m : meal) :
  violations (processMeal mv n d pd s m) =
  snd (selectCandidate (plan s) (fruitUsage s) d pd m (sortedCandidates mv) (violations s)).
Proof.
  unfold processMeal.
  destruct (selectCandidate (plan s) (fruitUsage s) d pd m (sortedCandidates mv) (violations s))
    as [[[f r]|] vs]; [reflexivity|].
  destruct (sortedCandidates mv) as [|[f v] rest]; reflexivity.
Qed.

Lemma selectCandidate_all_rejected (p : plan_t) (u : fruit -> nat) (d : day)
    (pd : option day) (m : meal) (cands : list (fruit * nat)) (vs : list violation) :
  (forall c, In c cands -> constraintCheck p u d pd m (fst c) <> None) ->
  fst (selectCandidate p u d pd m cands vs) = None.
Proof.
  intros H.
  destruct (selectCandidate_decomp p u d pd m cands vs) as (pre & post & Hc & _ & _ & Hp).
  destruct post as [|[g w] rest]; [exact Hp|].
  exfalso; apply (H (g, w)); [rewrite Hc; apply in_or_app; right; left; reflexivity|].
  exact (proj1 Hp).
Qed.

(** * Claims *)

(** C1: for every ballot set the plan holds exactly one assignment for each
    of the 12 canonical slots (Monday..Saturday x Lunch, Dinner), in the
    order of the loops, whatever the votes and the conflicts. *)
Theorem plan_has_every_slot_once (us : users_t) :
  map fst (plan (findOptimalPlanWithConstraints us)) = slot_order /\
  forall d m,
    List.length (filter (fun k => day_eqb (fst k) d && meal_eqb (snd k) m)
                   (map fst (plan (findOptimalPlanWithConstraints us)))) = 1.
Proof.
  destruct (findOptimal_inv us) as [H _]; rewrite H; split; [reflexivity|].
  intros [] []; reflexivity.
Qed.

(** C2: for every ballot set and every fruit, the fruit fills at most 2
    slots of the plan, unless one of its assignments carries the violation
    flag. *)
Theorem usage_cap_unless_flagged (us : users_t) (f : fruit) :
  plan_count (plan (findOptimalPlanWithConstraints us)) f <= 2 \/
  exists k a, In (k, a) (plan (findOptimalPlanWithConstraints us)) /\
              a_fruit a = Some f /\ a_hasViolation a = true.
Proof.
  destruct (findOptimal_inv us) as [_ (_ & Hcap & _)]; exact (Hcap f).
Qed.

(** C3: when the Lunch and Dinner assignments of a day hold the same fruit,
    one of the two carries the violation flag. *)
Theorem same_day_pair_flagged (us : users_t) (d : day) (a1 a2 : assignment) (f : fruit) :
  plan_lookup (plan (findOptimalPlanWithConstraints us)) d Lunch = Some a1 ->
  plan_lookup (plan (findOptimalPlanWithConstraints us)) d Dinner = Some a2 ->
  a_fruit a1 = Some f -> a_fruit a2 = Some f ->
  a_hasViolation a1 = true \/ a_hasViolation a2 = true.
Proof.
  destruct (findOptimal_inv us) as [_ (_ & _ & Hsp)].
  intros H1 H2 Hf1 Hf2.
  refine (Hsp (d, Lunch) (d, Dinner) a1 a2 f _ H1 H2 Hf1 Hf2).
  split; [discriminate | left; reflexivity].
Qed.

Lemma same_day_pair_flagged_witness :
  a_hasViolation (mkAssignment (Some Apple) 2 2 "2 votes, no violations" false) = true \/
  a_hasViolation (mkAssignment (Some Apple) 2 2 "Forced selection (2 votes)" true) = true.
Proof.
  apply (same_day_pair_flagged scenario2 Monday
           (mkAssignment (Some Apple) 2 2 "2 votes, no violations" false)
           (mkAssignment (Some Apple) 2 2 "Forced selection (2 votes)" true) Apple);
    vm_compute; reflexivity.
Defined.

(** C4: when an assignment of a day and one of the next day (in [days])
    hold the same fruit, one of the two carries the violation flag; and
    only finished days matter: the assignments up to a day [d] depend only
    on the selections made up to day [d], so a later day never blocks a
    candidate. *)
Theorem consecutive_days_flagged :
  (forall (us : users_t) (i : nat) (d1 d2 : day) (m1 m2 : meal) (a1 a2 : assignment) (f : fruit),
     nth_error days i = Some d1 -> nth_error days (S i) = Some d2 ->
     plan_lookup (plan (findOptimalPlanWithConstraints us)) d1 m1 = Some a1 ->
     plan_lookup (plan (findOptimalPlanWithConstraints us)) d2 m2 = Some a2 ->
     a_fruit a1 = Some f -> a_fruit a2 = Some f ->
     a_hasViolation a1 = true \/ a_hasViolation a2 = true) /\
  (forall (us us' : users_t) (d : day),
     Forall2 (fun u u' => fst u = fst u' /\
                forall d' m', day_index d' <= day_index d -> snd u d' m' = snd u' d' m') us us' ->
     forall d' m', day_index d' <= day_index d ->
       plan_lookup (plan (findOptimalPlanWithConstraints us)) d' m' =
       plan_lookup (plan (findOptimalPlanWithConstraints us')) d' m').
Proof.
  split.
  - intros us i d1 d2 m1 m2 a1 a2 f Hi1 Hi2 H1 H2 Hf1 Hf2.
    destruct (findOptimal_inv us) as [_ (_ & _ & Hsp)].
    pose proof (consecutive_prevDay i d1 d2 Hi1 Hi2) as Hp.
    refine (Hsp (d1, m1) (d2, m2) a1 a2 f _ H1 H2 Hf1 Hf2).
    split; [|right; exact Hp].
    intros Heq; injection Heq as Hd _; subst d2.
    apply prevDay_index in Hp; lia.
  - intros us us' d H.
    apply plan_prefix_independent.
    eapply Forall2_impl; [|exact H]; intros u u' [_ Hu]; exact Hu.
Qed.

Lemma consecutive_days_flagged_witness :
  (a_hasViolation (mkAssignment (Some Apple) 1 1 "1 votes, no violations" false) = true \/
   a_hasViolation (mkAssignment (Some Apple) 1 1 "Forced selection (1 votes)" true) = true) /\
  plan_lookup (plan (findOptimalPlanWithConstraints [("User 1", monday_tuesday_apple)])) Monday Lunch =
  plan_lookup (plan (findOptimalPlanWithConstraints [("User 1", one_vote Monday Lunch Apple)])) Monday Lunch.
Proof.
  split.
  - apply (proj1 consecutive_days_flagged [("User 1", monday_tuesday_apple)] 0
             Monday Tuesday Lunch Lunch
             (mkAssignment (Some Apple) 1 1 "1 votes, no violations" false)
             (mkAssignment (Some Apple) 1 1 "Forced selection (1 votes)" true) Apple);
      vm_compute; reflexivity.
  - apply (proj2 consecutive_days_flagged _ _ Monday); [|simpl; lia].
    constructor; [|constructor].
    split; [reflexivity|]; intros d' m' Hd'; destruct d', m'; simpl in Hd'; try lia; reflexivity.
Defined.

(** C10: the usage count returned for each fruit is the number of plan
    slots holding it (forced selections included, empty slots counting
    nothing), so the over-used fruits of the summary are exactly the fruits
    holding more than 2 slots, in catalog order. *)
Theorem usage_counts_match_plan (us : users_t) :
  (forall g, fruitUsage (findOptimalPlanWithConstraints us) g =
             plan_count (plan (findOptimalPlanWithConstraints us)) g) /\
  overUsed (findOptimalPlanWithConstraints us) =
  filter (fun g => 2 <? plan_count (plan (findOptimalPlanWithConstraints us)) g) fruits.
Proof.
  destruct (findOptimal_inv us) as [_ (Hu & _ & _)].
  split; [exact Hu|].
  unfold overUsed.
  generalize fruits; intros l; induction l as [|g l IH]; simpl; [reflexivity|].
  rewrite (Hu g); destruct (2 <? _); simpl; rewrite IH; reflexivity.
Qed.

(** C5: when every candidate with votes is rejected, the most voted one is
    forced, flagged, with reason "Forced selection (<votes> votes)"; when no
    fruit has votes, the slot gets no fruit, 0 votes, reason "No selection"
    and no flag; with no selection at all the whole plan is empty, the log
    is empty and the summary reports zero conflicts. *)
Theorem forced_or_empty_selection :
  (forall (vc : vc_t) (n : nat) (s : result) (d : day) (m : meal) (f : fruit) (v : nat)
          (rest : list (fruit * nat)),
     sortedCandidates (mealVotesOf vc d m) = (f, v) :: rest ->
     (forall c, In c ((f, v) :: rest) ->
        constraintCheck (plan s) (fruitUsage s) d (prevDay d) m (fst c) <> None) ->
     plan (slotStep vc n s (d, m)) =
       plan s ++ [((d, m), mkAssignment (Some f) v n
                             ("Forced selection (" ++ show_nat v ++ " votes)")%string true)] /\
     (forall c, In c ((f, v) :: rest) -> snd c <= v)) /\
  (forall (vc : vc_t) (n : nat) (s : result) (d : day) (m : meal),
     sortedCandidates (mealVotesOf vc d m) = [] ->
     plan (slotStep vc n s (d, m)) =
       plan s ++ [((d, m), mkAssignment None 0 n "No selection" false)] /\
     violations (slotStep vc n s (d, m)) = violations s /\
     fruitUsage (slotStep vc n s (d, m)) = fruitUsage s) /\
  (forall us : users_t,
     (forall u, In u us -> forall d m, snd u d m = None) ->
     plan (findOptimalPlanWithConstraints us) =
       map (fun k => (k, mkAssignment None 0 (List.length us) "No selection" false)) slot_order /\
     violations (findOptimalPlanWithConstraints us) = [] /\
     summary (findOptimalPlanWithConstraints us) = "0 constraint conflicts, 0 fruits over-used").
Proof.
  split; [|split].
  - intros vc n s d m f v rest Hc Hall.
    pose proof (sortedCandidates_sorted vc d m) as Hsort; rewrite Hc in Hsort.
    assert (Hv : v = vc d m f).
    { apply (sortedCandidates_In vc d m f v); rewrite Hc; left; reflexivity. }
    split.
    + unfold slotStep, processMeal; cbn [fst snd].
      pose proof (selectCandidate_all_rejected (plan s) (fruitUsage s) d (prevDay d) m
                    (sortedCandidates (mealVotesOf vc d m)) (violations s)) as Hn.
      rewrite Hc in Hn |- *; specialize (Hn Hall).
      destruct (selectCandidate _ _ _ _ _ _ _) as [found vs]; simpl in Hn; subst found.
      cbn -[votes_of mealVotesOf show_nat].
      rewrite votes_of_mealVotesOf, <- Hv; reflexivity.
    + apply StronglySorted_inv in Hsort; destruct Hsort as [_ Hf].
      rewrite Forall_forall in Hf.
      intros c [<- | Hin]; [simpl; lia|].
      specialize (Hf c Hin); unfold cand_before in Hf; simpl in Hf; lia.
  - intros vc n s d m Hc; unfold slotStep, processMeal; simpl; rewrite Hc; simpl.
    repeat split; reflexivity.
  - intros us Hempty.
    assert (Hz : findOptimalPlanWithConstraints us =
                 planDays (fun _ _ _ => 0) (List.length us) init_result).
    { unfold findOptimalPlanWithConstraints; rewrite !planDays_slots.
      apply fold_slotStep_congr; intros k _ f; apply countVotes_empty, Hempty. }
    rewrite Hz; generalize (List.length us) as n; intros n.
    repeat split; reflexivity.
Qed.

Lemma forced_or_empty_selection_witness :
  plan (slotStep (countVotes scenario2) 2
          (slotStep (countVotes scenario2) 2 init_result (Monday, Lunch)) (Monday, Dinner)) =
  plan (slotStep (countVotes scenario2) 2 init_result (Monday, Lunch)) ++
    [((Monday, Dinner), mkAssignment (Some Apple) 2 2 "Forced selection (2 votes)" true)] /\
  violations (findOptimalPlanWithConstraints [("User 1", empty_ballot)]) = [].
Proof.
  split.
  - apply (proj1 forced_or_empty_selection (countVotes scenario2) 2
             (slotStep (countVotes scenario2) 2 init_result (Monday, Lunch)) Monday Dinner Apple 2 []).
    + vm_compute; reflexivity.
    + intros c [<- | []]; vm_compute; discriminate.
  - apply (proj2 (proj2 forced_or_empty_selection) [("User 1", empty_ballot)]).
    intros u [<- | []] d m; reflexivity.
Defined.

(** C6: for every slot, the candidates rejected before the first legal one
    are exactly the ones logged, once each, in walk order, with their
    rejection reason and votes, appended to the earlier log; candidates
    after the first legal one are not logged, and when all are rejected
    (forced selection) each candidate is logged exactly once. *)
Theorem rejected_candidates_logged (vc : vc_t) (n : nat) (s : result) (d : day) (m : meal) :
  exists pre post,
    sortedCandidates (mealVotesOf vc d m) = pre ++ post /\
    Forall (fun c => constraintCheck (plan s) (fruitUsage s) d (prevDay d) m (fst c) <> None) pre /\
    (post = [] \/ exists f v rest, post = (f, v) :: rest /\
                   constraintCheck (plan s) (fruitUsage s) d (prevDay d) m f = None) /\
    violations (slotStep vc n s (d, m)) =
      violations s ++
      map (fun c => mkViolation d m (fst c)
                      (reason_of (constraintCheck (plan s) (fruitUsage s) d (prevDay d) m (fst c)))
                      (snd c)) pre.
Proof.
  destruct (selectCandidate_decomp (plan s) (fruitUsage s) d (prevDay d) m
              (sortedCandidates (mealVotesOf vc d m)) (violations s))
    as (pre & post & Hc & Hf & Hs & Hp).
  exists pre, post; repeat split; [exact Hc | exact Hf | | ].
  - destruct post as [|[f v] rest]; [left; reflexivity|].
    right; exists f, v, rest; split; [reflexivity | exact (proj1 Hp)].
  - unfold slotStep; simpl; rewrite processMeal_violations; exact Hs.
Qed.

Lemma rejected_candidates_logged_witness :
  exists pre post,
    sortedCandidates (mealVotesOf (countVotes scenario2) Monday Dinner) = pre ++ post /\
    Forall (fun c => constraintCheck [((Monday, Lunch), mkAssignment (Some Apple) 2 2 "2 votes, no violations" false)]
                       (fun g => if fruit_eqb g Apple then 1 else 0) Monday (prevDay Monday) Dinner (fst c) <> None) pre /\
    (post = [] \/ exists f v rest, post = (f, v) :: rest /\
       constraintCheck [((Monday, Lunch), mkAssignment (Some Apple) 2 2 "2 votes, no violations" false)]
         (fun g => if fruit_eqb g Apple then 1 else 0) Monday (prevDay Monday) Dinner f = None) /\
    violations (slotStep (countVotes scenario2) 2
                  (mkResult [((Monday, Lunch), mkAssignment (Some Apple) 2 2 "2 votes, no violations" false)]
                            (fun g => if fruit_eqb g Apple then 1 else 0) [])
                  (Monday, Dinner)) =
      [] ++ map (fun c => mkViolation Monday Dinner (fst c)
                   (reason_of (constraintCheck [((Monday, Lunch), mkAssignment (Some Apple) 2 2 "2 votes, no violations" false)]
                                 (fun g => if fruit_eqb g Apple then 1 else 0) Monday (prevDay Monday) Dinner (fst c)))
                   (snd c)) pre.
Proof.
  exact (rejected_candidates_logged (countVotes scenario2) 2
           (mkResult [((Monday, Lunch), mkAssignment (Some Apple) 2 2 "2 votes, no violations" false)]
                     (fun g => if fruit_eqb g Apple then 1 else 0) []) Monday Dinner).
Defined.

(** C7: the checks run in the order same day, consecutive days, usage cap
    (< 2); the reason of a rejection is the first rule that fails; a
    candidate passing the three is legal, and the first legal candidate of
    the walk is chosen with reason "<votes> votes, no violations" and no
    flag. *)
Theorem constraint_precedence :
  (forall (p : plan_t) (u : fruit -> nat) (d : day) (pd : option day) (m : meal) (f : fruit),
     (sameDayHit p d m f -> constraintCheck p u d pd m f = Some "Same day rule") /\
     (~ sameDayHit p d m f -> adjacentHit p pd f ->
        constraintCheck p u d pd m f = Some "Consecutive days rule") /\
     (~ sameDayHit p d m f -> ~ adjacentHit p pd f -> 2 <= u f ->
        constraintCheck p u d pd m f = Some "Max 2 times per week rule") /\
     (~ sameDayHit p d m f -> ~ adjacentHit p pd f -> u f < 2 ->
        constraintCheck p u d pd m f = None)) /\
  (forall (vc : vc_t) (n : nat) (s : result) (d : day) (m : meal)
          (pre rest : list (fruit * nat)) (f : fruit) (v : nat),
     sortedCandidates (mealVotesOf vc d m) = pre ++ (f, v) :: rest ->
     Forall (fun c => constraintCheck (plan s) (fruitUsage s) d (prevDay d) m (fst c) <> None) pre ->
     constraintCheck (plan s) (fruitUsage s) d (prevDay d) m f = None ->
     plan (slotStep vc n s (d, m)) =
       plan s ++ [((d, m), mkAssignment (Some f) v n
                             (show_nat v ++ " votes, no violations")%string false)]).
Proof.
  split.
  - intros p u d pd m f.
    rewrite !constraintCheck_cases, <- sameDayHit_reflect, <- adjacentHit_reflect.
    repeat split; intros; repeat match goal with
      | H : ~ (_ = true) |- _ => apply not_true_is_false in H; rewrite H
      | H : _ = true |- _ => rewrite H
      end; try reflexivity.
    + apply Nat.leb_le in H1; rewrite H1; reflexivity.
    + apply Nat.leb_gt in H1; rewrite H1; reflexivity.
  - intros vc n s d m pre rest f v Hc Hpre Hf.
    assert (Hsel : fst (selectCandidate (plan s) (fruitUsage s) d (prevDay d) m
                          (pre ++ (f, v) :: rest) (violations s)) =
                   Some (f, (show_nat v ++ " votes, no violations")%string)).
    { clear Hc; generalize (violations s); induction pre as [|[g w] pre IH]; intros vs; simpl.
      - rewrite Hf; reflexivity.
      - inversion Hpre as [|x l Hg Hpre']; subst; simpl in Hg.
        destruct (constraintCheck (plan s) (fruitUsage s) d (prevDay d) m g);
          [apply IH; exact Hpre' | congruence]. }
    assert (Hv : v = vc d m f).
    { apply (sortedCandidates_In vc d m f v); rewrite Hc; apply in_or_app; right; left; reflexivity. }
    unfold slotStep, processMeal; cbn [fst snd].
    rewrite Hc; destruct (selectCandidate _ _ _ _ _ _ _) as [found vs]; simpl in Hsel; subst found.
    cbn -[votes_of mealVotesOf show_nat].
    rewrite votes_of_mealVotesOf, <- Hv; reflexivity.
Qed.

Lemma constraint_precedence_witness :
  constraintCheck (plan (slotStep (countVotes scenario2) 2 init_result (Monday, Lunch)))
    (fruitUsage (slotStep (countVotes scenario2) 2 init_result (Monday, Lunch)))
    Monday None Dinner Apple = Some "Same day rule" /\
  plan (slotStep (countVotes scenario2) 2 init_result (Monday, Lunch)) =
    [((Monday, Lunch), mkAssignment (Some Apple) 2 2 "2 votes, no violations" false)].
Proof.
  split.
  - apply (proj1 constraint_precedence).
    exists Lunch; split; [discriminate | vm_compute; reflexivity].
  - apply (proj2 constraint_precedence (countVotes scenario2) 2 init_result Monday Lunch [] []
             Apple 2); [vm_compute; reflexivity | constructor | vm_compute; reflexivity].
Defined.

(** C8: the candidates of a slot are the fruits with a nonzero count, by
    descending count, ties in catalog order; this order is the only one
    with these properties; the whole result is fixed by the vote counts and
    the number of users, so two runs on the same ballots (or on ballots
    with the same counts) give identical plans and logs. *)
Theorem candidate_order (us : users_t) (d : day) (m : meal) :
  (forall f v, In (f, v) (sortedCandidates (mealVotesOf (countVotes us) d m)) <->
               v = countVotes us d m f /\ 0 < v) /\
  StronglySorted cand_before (sortedCandidates (mealVotesOf (countVotes us) d m)) /\
  (forall l, (forall c, In c l <-> In c (sortedCandidates (mealVotesOf (countVotes us) d m))) ->
             StronglySorted cand_before l ->
             l = sortedCandidates (mealVotesOf (countVotes us) d m)) /\
  (forall us', List.length us' = List.length us ->
               (forall d' m' f, countVotes us' d' m' f = countVotes us d' m' f) ->
               findOptimalPlanWithConstraints us' = findOptimalPlanWithConstraints us).
Proof.
  split; [|split; [|split]].
  - intros f v; apply sortedCandidates_In.
  - apply sortedCandidates_sorted.
  - intros l Hin Hs.
    apply (strict_sorted_unique cand_before cand_before_trans cand_before_irrefl);
      [exact Hs | apply sortedCandidates_sorted | exact Hin].
  - intros us' Hl Hvc; unfold findOptimalPlanWithConstraints; rewrite Hl, !planDays_slots.
    apply fold_slotStep_congr; intros k _ f; apply Hvc.
Qed.

Lemma candidate_order_witness :
  findOptimalPlanWithConstraints
    [("User 2", two_votes Monday Lunch Dinner Apple); ("User 1", two_votes Monday Lunch Dinner Apple)] =
  findOptimalPlanWithConstraints scenario2.
Proof.
  apply (proj2 (proj2 (proj2 (candidate_order scenario2 Monday Lunch)))); [reflexivity|].
  intros d m f; destruct d, m, f; reflexivity.
Defined.

Lemma user_count_fold (us : users_t) (u : string) (td : day) (tm : meal) (g : fruit) :
  forall ds cnt0,
  (fold_left (fun cnt d =>
     fold_left (fun (cnt : fruit -> nat) m =>
       if negb (day_eqb d td && meal_eqb m tm) then
         match user_sel us u d m with
         | Some f => fun g => if fruit_eqb g f then S (cnt g) else cnt g
         | None => cnt
         end
       else cnt) meals cnt) ds cnt0) g =
  cnt0 g + List.length (filter (fun k => negb (day_eqb (fst k) td && meal_eqb (snd k) tm)
                                 && fruit_opt_eqb g (user_sel us u (fst k) (snd k)))
                          (flat_map (fun d => map (fun m => (d, m)) meals) ds)).
Proof.
  assert (Hm : forall d ms (cnt : fruit -> nat),
    (fold_left (fun (cnt : fruit -> nat) m =>
       if negb (day_eqb d td && meal_eqb m tm) then
         match user_sel us u d m with
         | Some f => fun g => if fruit_eqb g f then S (cnt g) else cnt g
         | None => cnt
         end
       else cnt) ms cnt) g =
    cnt g + List.length (filter (fun k => negb (day_eqb (fst k) td && meal_eqb (snd k) tm)
                                   && fruit_opt_eqb g (user_sel us u (fst k) (snd k)))
                            (map (fun m => (d, m)) ms))).
  { intros d ms; induction ms as [|m ms IH]; intros cnt; simpl; [lia|].
    rewrite IH.
    destruct (negb (day_eqb d td && meal_eqb m tm)); simpl; [|reflexivity].
    destruct (user_sel us u d m) as [f|]; simpl; [|reflexivity].
    destruct (fruit_eqb g f); simpl; lia. }
  intros ds; induction ds as [|d ds IH]; intros cnt0; cbn [fold_left flat_map]; [simpl; lia|].
  rewrite IH, Hm, filter_app, length_app; lia.
Qed.

Lemma sel_hit (us : users_t) (u : string) (q : day) (f : fruit) :
  existsb (fruit_eqb f)
    (flat_map (fun m => match user_sel us u q m with Some g => [g] | None => [] end) meals) = true
  <-> exists m', user_sel us u q m' = Some f.
Proof.
  rewrite existsb_exists; split.
  - intros [g [Hin Heq]]; apply fruit_eqb_spec in Heq; subst g.
    apply in_flat_map in Hin; destruct Hin as [m' [_ Hm']]; exists m'.
    destruct (user_sel us u q m'); simpl in Hm'; [destruct Hm' as [<- | []]; reflexivity|].
    contradiction.
  - intros [m' Hm']; exists f; split; [|apply fruit_eqb_refl].
    apply in_flat_map; exists m'; split; [destruct m'; simpl; tauto|].
    rewrite Hm'; left; reflexivity.
Qed.

Lemma adjacent_hit (us : users_t) (u : string) (d : day) (f : fruit) :
  existsb (fruit_eqb f)
    ((match (if 0 <? day_index d then nth_error days (day_index d - 1) else None) with
      | Some pd => flat_map (fun m => match user_sel us u pd m with
                                      | Some f => [f] | None => [] end) meals
      | None => []
      end ++
      match (if day_index d <? List.length days - 1 then nth_error days (day_index d + 1) else None) with
      | Some nd => flat_map (fun m => match user_sel us u nd m with
                                      | Some f => [f] | None => [] end) meals
      | None => []
      end)%list) = true
  <-> exists d' m', adjacent_day d d' /\ user_sel us u d' m' = Some f.
Proof.
  rewrite existsb_app, orb_true_iff.
  assert (Hp : (if 0 <? day_index d then nth_error days (day_index d - 1) else None) = prevDay d)
    by (destruct d; reflexivity).
  rewrite Hp; unfold adjacent_day; split.
  - intros [H | H].
    + destruct (prevDay d) as [q|] eqn:Hq; [|discriminate].
      apply sel_hit in H; destruct H as [m' Hm]; exists q, m'; auto.
    + destruct (if day_index d <? List.length days - 1 then nth_error days (day_index d + 1)
                else None) as [q|] eqn:Hq; [|discriminate].
      apply sel_hit in H; destruct H as [m' Hm]; exists q, m'; split; [right|exact Hm].
      destruct d, q; simpl in Hq |- *; congruence.
  - intros (d' & m' & [Hd | Hd] & Hm).
    + left; rewrite Hd; apply sel_hit; exists m'; exact Hm.
    + right.
      replace (if day_index d <? List.length days - 1 then nth_error days (day_index d + 1) else None)
        with (Some d') by (destruct d, d'; simpl in Hd |- *; congruence).
      apply sel_hit; exists m'; exact Hm.
Qed.

(** ** The options of a dropdown *)

Lemma availableFruits_iff (us : users_t) (u : string) (d : day) (m : meal) (f : fruit) :
  In f (getAvailableFruits us u d m) <->
  user_sel us u d (other_meal m) <> Some f /\
  (forall d' m', adjacent_day d d' -> user_sel us u d' m' <> Some f) /\
  own_count us u d m f < 2.
Proof.
  unfold getAvailableFruits; rewrite filter_In.
  rewrite user_count_fold; fold slot_order; fold (own_count us u d m f); simpl (0 + _).
  pose proof (adjacent_hit us u d f) as Hadj.
  replace (match m with Lunch => Dinner | Dinner => Lunch end) with (other_meal m) by reflexivity.
  destruct (fruit_opt_eqb f (user_sel us u d (other_meal m))) eqn:E1.
  - apply fruit_opt_eqb_spec in E1; split; [intros [_ H]; discriminate | intros [H _]; contradiction].
  - destruct (existsb (fruit_eqb f) _) eqn:E2.
    + split; [intros [_ H]; discriminate|].
      intros (_ & H & _); destruct (proj1 Hadj eq_refl) as (d' & m' & Hd & Hs).
      exfalso; exact (H d' m' Hd Hs).
    + destruct (2 <=? own_count us u d m f) eqn:E3.
      * apply Nat.leb_le in E3; split; [intros [_ H]; discriminate | intros (_ & _ & H); lia].
      * apply Nat.leb_gt in E3; split; [intros _ | intros _; split; [apply in_fruits | reflexivity]].
        split; [intros H; rewrite (proj2 (fruit_opt_eqb_spec _ _) H) in E1; discriminate|].
        split; [|exact E3].
        intros d' m' Hd Hs.
        assert (Hx : exists d' m', adjacent_day d d' /\ user_sel us u d' m' = Some f)
          by (exists d', m'; auto).
        apply Hadj in Hx; congruence.
Qed.

Lemma getAvailableFruits_filter (us : users_t) (u : string) (d : day) (m : meal) :
  exists P, getAvailableFruits us u d m = filter P fruits.
Proof. eexists; unfold getAvailableFruits; reflexivity. Qed.

Lemma filter_fruits_ext (A B : list fruit) :
  (exists P, A = filter P fruits) -> (exists Q, B = filter Q fruits) ->
  (forall f, In f A <-> In f B) -> A = B.
Proof.
  intros [P ->] [Q ->] H; apply filter_ext_in; intros f Hf.
  specialize (H f); rewrite !filter_In in H.
  destruct (P f), (Q f); try reflexivity;
    [destruct (proj1 H (conj Hf eq_refl)) as [_ E] | destruct (proj2 H (conj Hf eq_refl)) as [_ E]];
    discriminate.
Qed.

Lemma fruits_catalog_sorted : StronglySorted (fun a b => fruit_index a < fruit_index b) fruits.
Proof.
  unfold fruits.
  repeat (apply SSorted_cons || apply SSorted_nil || apply Forall_cons || apply Forall_nil
          || (simpl; lia)).
Qed.

Lemma getAvailableFruits_sorted (us : users_t) (u : string) (d : day) (m : meal) :
  StronglySorted (fun a b => fruit_index a < fruit_index b) (getAvailableFruits us u d m).
Proof. unfold getAvailableFruits; apply StronglySorted_filter_keep, fruits_catalog_sorted. Qed.

(** C9: the counterexample. User 1 picked Apple for Tuesday lunch; for
    Monday lunch the scheduler's rules (previous day only) allow Apple, but
    [getAvailableFruits] also looks at the next day and leaves Apple out. *)
Lemma availableFruits_next_day_counterexample :
  ~ In Apple (getAvailableFruits [("User 1", one_vote Tuesday Lunch Apple)] "User 1" Monday Lunch) /\
  In Apple (availableFruits_schedulerRules [("User 1", one_vote Tuesday Lunch Apple)] "User 1" Monday Lunch).
Proof.
  split; vm_compute; [intuition discriminate | left; reflexivity].
Qed.

(** C9 (amended): [getAvailableFruits] returns exactly the fruits, in
    catalog order, that the user did not pick for the other meal of that
    day, did not pick on the previous day nor on the next day, and picked
    fewer than 2 times in the other slots (the target slot is left out of
    the count); only this user's selections are read. The result is in
    strictly increasing catalog position (so without repetition), it is a
    filter of [fruits], and it is the only such filter with these members. *)
Theorem availableFruits_rules (us : users_t) (u : string) (d : day) (m : meal) :
  (forall f, In f (getAvailableFruits us u d m) <->
    user_sel us u d (other_meal m) <> Some f /\
    (forall d' m', adjacent_day d d' -> user_sel us u d' m' <> Some f) /\
    own_count us u d m f < 2) /\
  StronglySorted (fun a b => fruit_index a < fruit_index b) (getAvailableFruits us u d m) /\
  (exists P, getAvailableFruits us u d m = filter P fruits) /\
  (forall l, (exists P, l = filter P fruits) ->
    (forall f, In f l <->
      user_sel us u d (other_meal m) <> Some f /\
      (forall d' m', adjacent_day d d' -> user_sel us u d' m' <> Some f) /\
      own_count us u d m f < 2) ->
    l = getAvailableFruits us u d m).
Proof.
  split; [exact (availableFruits_iff us u d m)|].
  split; [apply getAvailableFruits_sorted|].
  split; [apply getAvailableFruits_filter|].
  intros l Hl Hm; apply filter_fruits_ext; [exact Hl | apply getAvailableFruits_filter|].
  intros f; rewrite Hm, availableFruits_iff; reflexivity.
Qed.

Lemma availableFruits_rules_witness :
  In Banana (getAvailableFruits [("User 1", one_vote Tuesday Lunch Apple)] "User 1" Monday Lunch).
Proof.
  apply (proj2 (proj1 (availableFruits_rules [("User 1", one_vote Tuesday Lunch Apple)] "User 1"
                  Monday Lunch) Banana)).
  split; [discriminate|]; split; [|vm_compute; lia].
  intros d' m' _; destruct d', m'; discriminate.
Defined.



Lemma filter_split_len {A : Type} (p q : A -> bool) (l : list A) :
  List.length (filter p l) =
  List.length (filter (fun x => p x && q x) l) + List.length (filter (fun x => p x && negb (q x)) l).
Proof.
  induction l as [|x l IH]; simpl; [reflexivity|].
  destruct (p x), (q x); simpl; rewrite IH; lia.
Qed.

Lemma filter_compl_len {A : Type} (p : A -> bool) (l : list A) :
  List.length (filter p l) + List.length (filter (fun x => negb (p x)) l) = List.length l.
Proof.
  induction l as [|x l IH]; simpl; [reflexivity|].
  destruct (p x); simpl; lia.
Qed.

Lemma filter_or_len {A : Type} (p q : A -> bool) (l : list A) :
  List.length (filter (fun x => p x || q x) l) <=
  List.length (filter p l) + List.length (filter q l).
Proof.
  induction l as [|x l IH]; simpl; [lia|].
  destruct (p x), (q x); simpl; lia.
Qed.

Lemma filter_filter_eq {A : Type} (p q : A -> bool) (l : list A) :
  filter p (filter q l) = filter (fun x => q x && p x) l.
Proof.
  induction l as [|x l IH]; simpl; [reflexivity|].
  destruct (q x); simpl; [destruct (p x); simpl|]; rewrite IH; reflexivity.
Qed.

Lemma NoDup_fruits : NoDup fruits.
Proof. unfold fruits; repeat constructor; simpl; intuition discriminate. Qed.

Lemma NoDup_slot_order : NoDup slot_order.
Proof. unfold slot_order; simpl; repeat constructor; simpl; intuition discriminate. Qed.

Lemma list_sum_map_add {A : Type} (g h : A -> nat) (l : list A) :
  list_sum (map (fun x => g x + h x) l) = list_sum (map g l) + list_sum (map h l).
Proof. induction l as [|x l IH]; simpl; [reflexivity|]; rewrite IH; lia. Qed.

Lemma one_fruit_hit (o : option fruit) :
  List.length (filter (fun f => fruit_opt_eqb f o) fruits) <= 1.
Proof. destruct o as [[]|]; simpl; lia. Qed.

Lemma exists_bound {A : Type} (val : A -> option fruit) (N : list A) :
  List.length (filter (fun f => existsb (fun k => fruit_opt_eqb f (val k)) N) fruits)
  <= List.length N.
Proof.
  induction N as [|k N IH]; [unfold fruits; simpl; lia|].
  cbn [existsb Datatypes.length].
  - eapply Nat.le_trans; [apply (filter_or_len (fun f => fruit_opt_eqb f (val k))
                  (fun f => existsb (fun k => fruit_opt_eqb f (val k)) N))|].
    pose proof (one_fruit_hit (val k)); lia.
Qed.

Lemma pair_bound_sum (l : list fruit) (c : fruit -> nat) :
  2 * List.length (filter (fun f => 2 <=? c f) l) <= list_sum (map c l).
Proof.
  induction l as [|x l IH]; [simpl; lia|].
  change (list_sum (map c (x :: l))) with (c x + list_sum (map c l)).
  cbn [filter]; destruct (2 <=? c x) eqn:E; cbn [Datatypes.length];
    [apply Nat.leb_le in E|]; lia.
Qed.

Lemma sum_counts_bound {A : Type} (val : A -> option fruit) (R : list A) :
  list_sum (map (fun f => List.length (filter (fun k => fruit_opt_eqb f (val k)) R)) fruits)
  <= List.length R.
Proof.
  induction R as [|k R IH]; [unfold fruits; simpl; lia|].
  rewrite (map_ext (fun f => List.length (filter (fun k => fruit_opt_eqb f (val k)) (k :: R)))
               (fun f => (if fruit_opt_eqb f (val k) then 1 else 0) +
                         List.length (filter (fun k => fruit_opt_eqb f (val k)) R)))
    by (intros f; cbn [filter]; destruct (fruit_opt_eqb f (val k)); reflexivity).
  rewrite list_sum_map_add.
  assert (H1 : list_sum (map (fun f => if fruit_opt_eqb f (val k) then 1 else 0) fruits) <= 1)
    by (destruct (val k) as [[]|]; simpl; lia).
  cbn [Datatypes.length]; lia.
Qed.

Lemma pair_bound {A : Type} (val : A -> option fruit) (R : list A) :
  2 * List.length (filter (fun f => 2 <=? List.length (filter (fun k => fruit_opt_eqb f (val k)) R))
                    fruits) <= List.length R.
Proof.
  pose proof (pair_bound_sum fruits (fun f => List.length (filter (fun k => fruit_opt_eqb f (val k)) R))).
  pose proof (sum_counts_bound val R); lia.
Qed.

Lemma nbr_rest_bound (k : day * meal) :
  2 * List.length (filter (isNbr k) slot_order) + List.length (filter (isRest k) slot_order) <= 16.
Proof. destruct k as [[] []]; vm_compute; lia. Qed.

Lemma own_count_split (us : users_t) (u : string) (d : day) (m : meal) (f : fruit) :
  own_count us u d m f =
  List.length (filter (fun k => fruit_opt_eqb f (user_sel us u (fst k) (snd k)))
                 (filter (isNbr (d, m)) slot_order)) +
  List.length (filter (fun k => fruit_opt_eqb f (user_sel us u (fst k) (snd k)))
                 (filter (isRest (d, m)) slot_order)).
Proof.
  unfold own_count; rewrite (filter_split_len _ (isNbr (d, m))), !filter_filter_eq.
  f_equal; f_equal; apply filter_ext; intros k; unfold isRest, isNbr; simpl;
    destruct (negb (day_eqb (fst k) d && meal_eqb (snd k) m)),
             (fruit_opt_eqb f (user_sel us u (fst k) (snd k))),
             (day_eqb (fst k) d || adjacent_dayb d (fst k)); reflexivity.
Qed.

Lemma isNbr_other_meal (d : day) (m : meal) : isNbr (d, m) (d, other_meal m) = true.
Proof. destruct d, m; reflexivity. Qed.

Lemma isNbr_adjacent (d d' : day) (m m' : meal) :
  adjacent_day d d' -> isNbr (d, m) (d', m') = true.
Proof.
  unfold adjacent_day; intros H.
  destruct d, d'; destruct H as [H|H]; simpl in H; try discriminate; destruct m, m'; reflexivity.
Qed.

Lemma availableFruits_length (us : users_t) (u : string) (d : day) (m : meal) :
  2 <= List.length (getAvailableFruits us u d m).
Proof.
  set (val := fun k : day * meal => user_sel us u (fst k) (snd k)).
  set (N := filter (isNbr (d, m)) slot_order).
  set (R := filter (isRest (d, m)) slot_order).
  set (e := fun f => existsb (fun k => fruit_opt_eqb f (val k)) N ||
                     (2 <=? List.length (filter (fun k => fruit_opt_eqb f (val k)) R))).
  assert (Hin : forall f, e f = false -> In f (getAvailableFruits us u d m)).
  { intros f Hf; unfold e in Hf; apply orb_false_iff in Hf; destruct Hf as [HN HR].
    assert (HNk : forall k, In k N -> val k <> Some f).
    { intros k Hk Hv.
      assert (Hx : existsb (fun k => fruit_opt_eqb f (val k)) N = true)
        by (apply existsb_exists; exists k; split; [exact Hk | apply fruit_opt_eqb_spec; exact Hv]).
      congruence. }
    apply availableFruits_iff; split; [|split].
    - apply (HNk (d, other_meal m)); unfold N; apply filter_In;
        split; [apply in_slot_order | apply isNbr_other_meal].
    - intros d' m' Had; apply (HNk (d', m')); unfold N; apply filter_In;
        split; [apply in_slot_order | apply isNbr_adjacent; exact Had].
    - rewrite own_count_split.
      change (fun k : day * meal => fruit_opt_eqb f (user_sel us u (fst k) (snd k)))
        with (fun k => fruit_opt_eqb f (val k)).
      fold N; fold R.
      apply Nat.leb_gt in HR.
      assert (H0 : filter (fun k => fruit_opt_eqb f (val k)) N = []).
      { destruct (filter (fun k => fruit_opt_eqb f (val k)) N) as [|k l] eqn:E; [reflexivity|].
        exfalso; assert (Hk : In k (filter (fun k => fruit_opt_eqb f (val k)) N))
          by (rewrite E; left; reflexivity).
        apply filter_In in Hk; destruct Hk as [Hk Hv].
        apply fruit_opt_eqb_spec in Hv; exact (HNk k Hk Hv). }
      rewrite H0; simpl; lia. }
  assert (Hle : List.length (filter (fun f => negb (e f)) fruits) <=
                List.length (getAvailableFruits us u d m)).
  { apply NoDup_incl_length; [apply NoDup_filter, NoDup_fruits|].
    intros f Hf; apply filter_In in Hf; destruct Hf as [_ Hf]; apply negb_true_iff in Hf.
    exact (Hin f Hf). }
  pose proof (filter_compl_len e fruits) as Hc.
  pose proof (filter_or_len (fun f => existsb (fun k => fruit_opt_eqb f (val k)) N)
                (fun f => 2 <=? List.length (filter (fun k => fruit_opt_eqb f (val k)) R)) fruits) as Hor.
  pose proof (exists_bound val N) as HbN.
  pose proof (pair_bound val R) as HbR.
  pose proof (nbr_rest_bound (d, m)) as Hb; fold N R in Hb.
  change (List.length fruits) with 10 in Hc.
  unfold e in Hc, Hle; lia.
Qed.

(** ** Ballots and the user store *)

Lemma slot_eqb_spec (k : day * meal) (d : day) (m : meal) :
  day_eqb (fst k) d && meal_eqb (snd k) m = true <-> k = (d, m).
Proof.
  destruct k as [d' m']; simpl; rewrite andb_true_iff, day_eqb_spec, meal_eqb_spec.
  split; [intros [-> ->]; reflexivity | intros H; injection H as -> ->; auto].
Qed.

Lemma ballot_set_at (b : ballot) (d : day) (m : meal) (v : option fruit) :
  ballot_set b d m v d m = v.
Proof. unfold ballot_set; destruct d, m; reflexivity. Qed.

Lemma ballot_set_other (b : ballot) (d d' : day) (m m' : meal) (v : option fruit) :
  (d', m') <> (d, m) -> ballot_set b d m v d' m' = b d' m'.
Proof.
  intros H; unfold ballot_set.
  destruct (day_eqb d' d && meal_eqb m' m) eqn:E; [|reflexivity].
  apply (slot_eqb_spec (d', m')) in E; contradiction.
Qed.

Lemma user_sel_lookup (us : users_t) (u : string) (b : ballot) (d : day) (m : meal) :
  lookup_user us u = Some b -> user_sel us u d m = b d m.
Proof. unfold user_sel; intros ->; reflexivity. Qed.

Lemma lookup_users_set_same (us : users_t) (k : string) (v : ballot) :
  lookup_user (users_set us k v) k = Some v.
Proof.
  induction us as [|[n b] us IH]; simpl; [rewrite String.eqb_refl; reflexivity|].
  destruct (String.eqb n k) eqn:E; simpl; [rewrite E; reflexivity|].
  rewrite E; exact IH.
Qed.

Lemma lookup_users_set_other (us : users_t) (k k' : string) (v : ballot) :
  k' <> k -> lookup_user (users_set us k v) k' = lookup_user us k'.
Proof.
  intros Hne; induction us as [|[n b] us IH]; simpl.
  - destruct (String.eqb k k') eqn:E; [apply String.eqb_eq in E; congruence | reflexivity].
  - destruct (String.eqb n k) eqn:E; simpl.
    + apply String.eqb_eq in E; subst n.
      destruct (String.eqb k k') eqn:E'; [apply String.eqb_eq in E'; congruence | reflexivity].
    + destruct (String.eqb n k'); [reflexivity | exact IH].
Qed.

Lemma keys_users_set_in (us : users_t) (k : string) (v : ballot) :
  In k (map fst us) -> map fst (users_set us k v) = map fst us.
Proof.
  induction us as [|[n b] us IH]; simpl; [contradiction|].
  intros H; destruct (String.eqb n k) eqn:E; simpl; [reflexivity|].
  f_equal; apply IH; destruct H as [H|H]; [subst n; rewrite String.eqb_refl in E; discriminate|exact H].
Qed.

Lemma users_set_notin (us : users_t) (k : string) (v : ballot) :
  ~ In k (map fst us) -> users_set us k v = us ++ [(k, v)].
Proof.
  induction us as [|[n b] us IH]; simpl; [reflexivity|].
  intros H; destruct (String.eqb n k) eqn:E.
  - apply String.eqb_eq in E; subst n; tauto.
  - f_equal; apply IH; tauto.
Qed.

Lemma lookup_user_keys (us : users_t) (k : string) :
  lookup_user us k = None <-> ~ In k (map fst us).
Proof.
  induction us as [|[n b] us IH]; simpl; [tauto|].
  destruct (String.eqb n k) eqn:E.
  - apply String.eqb_eq in E; subst n; split; [discriminate | tauto].
  - rewrite IH; apply String.eqb_neq in E; intuition.
Qed.

Lemma lookup_user_In (us : users_t) (k : string) (b : ballot) :
  lookup_user us k = Some b -> In (k, b) us.
Proof.
  induction us as [|[n b'] us IH]; simpl; [discriminate|].
  destruct (String.eqb n k) eqn:E; intros H.
  - apply String.eqb_eq in E; subst n; injection H as ->; left; reflexivity.
  - right; exact (IH H).
Qed.

Lemma In_lookup_user (us : users_t) (k : string) (b : ballot) :
  NoDup (map fst us) -> In (k, b) us -> lookup_user us k = Some b.
Proof.
  induction us as [|[n b'] us IH]; simpl; [contradiction|].
  intros Hnd [H|H]; inversion Hnd as [|x l Hn Hnd' Heq]; subst.
  - injection H as -> ->; rewrite String.eqb_refl; reflexivity.
  - destruct (String.eqb n k) eqn:E; [|exact (IH Hnd' H)].
    apply String.eqb_eq in E; subst n; exfalso; apply Hn.
    apply in_map_iff; exists (k, b); auto.
Qed.

Lemma In_users_set (us : users_t) (k u : string) (v b : ballot) :
  In (u, b) (users_set us k v) -> (u = k /\ b = v) \/ In (u, b) us.
Proof.
  induction us as [|[n b'] us IH]; simpl.
  - intros [H|[]]; injection H as -> ->; left; auto.
  - destruct (String.eqb n k) eqn:E; simpl.
    + apply String.eqb_eq in E; subst n; intros [H|H];
        [injection H as -> ->; left; auto | right; right; exact H].
    + intros [H|H]; [right; left; exact H|].
      destruct (IH H) as [H'|H']; [left; exact H' | right; right; exact H'].
Qed.

(** ** The rules on a ballot *)

Lemma count_sublist (c : ballot) (f : fruit) (P Q : list (day * meal)) :
  NoDup P -> incl P Q ->
  List.length (filter (fun k => fruit_opt_eqb f (c (fst k) (snd k))) P) <=
  List.length (filter (fun k => fruit_opt_eqb f (c (fst k) (snd k))) Q).
Proof.
  intros Hnd Hi; apply NoDup_incl_length; [apply NoDup_filter; exact Hnd|].
  intros k Hk; apply filter_In in Hk; destruct Hk as [Hk Hf]; apply filter_In; auto.
Qed.

Lemma ballot_ok_restrict (c : ballot) (P : list (day * meal)) :
  NoDup P -> ballot_ok c -> ok_on P c.
Proof.
  intros Hnd [Hc Hn]; split.
  - intros k1 k2 f _ _; apply Hc.
  - intros f; eapply Nat.le_trans; [|exact (Hn f)].
    apply count_sublist; [exact Hnd | intros k _; destruct k; apply in_slot_order].
Qed.

Lemma ok_on_full (c : ballot) (Q : list (day * meal)) :
  (forall k, In k Q) -> ok_on Q c -> ballot_ok c.
Proof.
  intros Hall [Hc Hn]; split.
  - intros k1 k2 f; apply Hc; apply Hall.
  - intros f; eapply Nat.le_trans; [|exact (Hn f)].
    apply count_sublist; [exact NoDup_slot_order | intros k _; apply Hall].
Qed.

(** A value the dropdown of slot [(d, m)] may take, for the ballot [c]. *)
Lemma ok_step (c : ballot) (P : list (day * meal)) (d : day) (m : meal) (r : option fruit) :
  NoDup P -> ~ In (d, m) P -> ok_on P c ->
  (r = None \/ exists f, r = Some f /\ c d (other_meal m) <> Some f /\
     (forall d' m', adjacent_day d d' -> c d' m' <> Some f) /\
     List.length (filter (fun k => negb (day_eqb (fst k) d && meal_eqb (snd k) m)
                                   && fruit_opt_eqb f (c (fst k) (snd k))) slot_order) < 2) ->
  ok_on ((d, m) :: P) (ballot_set c d m r).
Proof.
  intros Hnd Hk [Hc Hn] Hr.
  assert (Hsame : forall k, In k P -> ballot_set c d m r (fst k) (snd k) = c (fst k) (snd k)).
  { intros [d' m'] Hin; simpl; apply ballot_set_other; intros E; rewrite E in Hin; contradiction. }
  split.
  - intros k1 k2 f H1 H2 Hcf E1 E2.
    destruct H1 as [<-|H1], H2 as [<-|H2].
    + destruct Hcf as [Hne _]; contradiction.
    + rewrite ballot_set_at in E1; rewrite (Hsame k2 H2) in E2; subst r.
      destruct Hr as [Hr|(g & Hg & Ho & Ha & _)]; [discriminate|]; injection Hg as <-.
      destruct k2 as [d2 m2]; destruct Hcf as [Hne [Hd|Hd]]; simpl in Hd.
      * subst d2; apply Ho; replace (other_meal m) with m2; [exact E2|].
        destruct m, m2; simpl; congruence.
      * exact (Ha d2 m2 (or_intror Hd) E2).
    + rewrite ballot_set_at in E2; rewrite (Hsame k1 H1) in E1; subst r.
      destruct Hr as [Hr|(g & Hg & Ho & Ha & _)]; [discriminate|]; injection Hg as <-.
      destruct k1 as [d1 m1]; destruct Hcf as [Hne [Hd|Hd]]; simpl in Hd.
      * subst d1; apply Ho; replace (other_meal m) with m1; [exact E1|].
        destruct m, m1; simpl; congruence.
      * exact (Ha d1 m1 (or_introl Hd) E1).
    + rewrite (Hsame k1 H1) in E1; rewrite (Hsame k2 H2) in E2.
      exact (Hc k1 k2 f H1 H2 Hcf E1 E2).
  - intros g; cbn [filter fst snd]; rewrite ballot_set_at.
    rewrite (filter_ext_in _ (fun k => fruit_opt_eqb g (c (fst k) (snd k))) P)
      by (intros k Hin; rewrite (Hsame k Hin); reflexivity).
    destruct (fruit_opt_eqb g r) eqn:Eg; cbn [Datatypes.length]; [|exact (Hn g)].
    apply fruit_opt_eqb_spec in Eg; subst r.
    destruct Hr as [Hr|(f & Hf & _ & _ & Hcnt)]; [discriminate|]; injection Hf as <-.
    enough (List.length (filter (fun k => fruit_opt_eqb g (c (fst k) (snd k))) P) <
            2) by lia.
    eapply Nat.le_lt_trans; [|exact Hcnt].
    apply NoDup_incl_length; [apply NoDup_filter; exact Hnd|].
    intros k Hin; apply filter_In in Hin; destruct Hin as [Hin Hg]; apply filter_In.
    split; [destruct k; apply in_slot_order|].
    rewrite Hg, andb_true_r; apply negb_true_iff.
    destruct (day_eqb (fst k) d && meal_eqb (snd k) m) eqn:E; [|reflexivity].
    apply slot_eqb_spec in E; subst k; contradiction.
Qed.

(** The options of a dropdown, on the ballot [b] of its user. *)
Lemma option_allowed (us : users_t) (u : string) (b : ballot) (d : day) (m : meal) (f : fruit) :
  lookup_user us u = Some b -> In f (getAvailableFruits us u d m) ->
  b d (other_meal m) <> Some f /\
  (forall d' m', adjacent_day d d' -> b d' m' <> Some f) /\
  List.length (filter (fun k => negb (day_eqb (fst k) d && meal_eqb (snd k) m)
                                && fruit_opt_eqb f (b (fst k) (snd k))) slot_order) < 2.
Proof.
  intros Hb H; apply availableFruits_iff in H; destruct H as (H1 & H2 & H3).
  rewrite (user_sel_lookup _ _ _ _ _ Hb) in H1.
  split; [exact H1|]; split.
  - intros d' m' Ha; rewrite <- (user_sel_lookup _ _ _ _ _ Hb); exact (H2 d' m' Ha).
  - unfold own_count in H3.
    erewrite filter_ext in H3; [exact H3|].
    intros k; rewrite (user_sel_lookup _ _ _ _ _ Hb); reflexivity.
Qed.

Lemma ballot_ok_set (c : ballot) (d : day) (m : meal) (r : option fruit) :
  ballot_ok c ->
  (r = None \/ exists f, r = Some f /\ c d (other_meal m) <> Some f /\
     (forall d' m', adjacent_day d d' -> c d' m' <> Some f) /\
     List.length (filter (fun k => negb (day_eqb (fst k) d && meal_eqb (snd k) m)
                                   && fruit_opt_eqb f (c (fst k) (snd k))) slot_order) < 2) ->
  ballot_ok (ballot_set c d m r).
Proof.
  intros Hc Hr.
  set (P := filter (fun k => negb (day_eqb (fst k) d && meal_eqb (snd k) m)) slot_order).
  assert (HndP : NoDup P) by (apply NoDup_filter, NoDup_slot_order).
  assert (HkP : ~ In (d, m) P).
  { unfold P; rewrite filter_In; intros [_ H].
    rewrite (proj2 (slot_eqb_spec (d, m) d m) eq_refl) in H; discriminate. }
  apply (ok_on_full _ ((d, m) :: P)).
  - intros k; destruct (day_eqb (fst k) d && meal_eqb (snd k) m) eqn:E.
    + apply slot_eqb_spec in E; left; symmetry; exact E.
    + right; unfold P; apply filter_In; rewrite E; split; [destruct k; apply in_slot_order | reflexivity].
  - apply ok_step; [exact HndP | exact HkP | apply ballot_ok_restrict; assumption | exact Hr].
Qed.

(** ** Quick Fill *)



Lemma quickFillSlot_spec (rnd : string -> day -> meal -> nat -> nat) (u : string)
    (us : users_t) (d : day) (m : meal) :
  In u (map fst us) ->
  exists c r, lookup_user us u = Some c /\
    quickFillSlot rnd u us d m = users_set us u (ballot_set c d m r) /\
    (r = None \/ exists f, r = Some f /\ In f (getAvailableFruits us u d m)) /\
    ((forall n, 0 < n -> rnd u d m n < n) -> r <> None).
Proof.
  intros Hu.
  destruct (lookup_user us u) as [c|] eqn:Hc; [|apply lookup_user_keys in Hc; contradiction].
  pose proof (availableFruits_length us u d m) as Hl.
  set (r := nth_error (getAvailableFruits us u d m)
              (rnd u d m (List.length (getAvailableFruits us u d m)))).
  exists c, r; split; [reflexivity|]; split.
  - unfold quickFillSlot; replace (0 <? List.length (getAvailableFruits us u d m)) with true
      by (symmetry; apply Nat.ltb_lt; lia).
    rewrite Hc; reflexivity.
  - split.
    + destruct r as [f|] eqn:Er; [right; exists f; split; [reflexivity|] | left; reflexivity].
      unfold r in Er; exact (nth_error_In _ _ Er).
    + intros Hrnd; unfold r; apply nth_error_Some, Hrnd; lia.
Qed.

Lemma quickFill_pass (rnd : string -> day -> meal -> nat -> nat) (u : string) (L : list (day * meal)) :
  forall us Q c,
    In u (map fst us) -> lookup_user us u = Some c -> NoDup (Q ++ L) -> ok_on Q c ->
    let us' := fold_left (fun us k => quickFillSlot rnd u us (fst k) (snd k)) L us in
    map fst us' = map fst us /\
    (forall u', u' <> u -> lookup_user us' u' = lookup_user us u') /\
    exists c', lookup_user us' u = Some c' /\ ok_on (rev L ++ Q) c' /\
      ((forall d m n, 0 < n -> rnd u d m n < n) ->
       (forall k, In k Q -> c (fst k) (snd k) <> None) ->
       forall k, In k (rev L ++ Q) -> c' (fst k) (snd k) <> None).
Proof.
  induction L as [|[d m] L IH]; intros us Q c Hu Hc Hnd Hok; cbn [fold_left rev app fst snd].
  - split; [reflexivity|]; split; [reflexivity|]; exists c; split; [exact Hc|]; split; [exact Hok|].
    intros _ H; exact H.
  - destruct (quickFillSlot_spec rnd u us d m Hu) as (c0 & r & Hc0 & Heq & Hr & Hfull).
    rewrite Hc in Hc0; injection Hc0 as <-.
    rewrite Heq.
    set (us1 := users_set us u (ballot_set c d m r)).
    assert (Hk1 : map fst us1 = map fst us) by (apply keys_users_set_in; exact Hu).
    assert (Hu1 : In u (map fst us1)) by (rewrite Hk1; exact Hu).
    assert (Hc1 : lookup_user us1 u = Some (ballot_set c d m r)) by apply lookup_users_set_same.
    apply NoDup_remove in Hnd; destruct Hnd as [Hnd Hnin].
    assert (Hok1 : ok_on ((d, m) :: Q) (ballot_set c d m r)).
    { apply ok_step; [apply NoDup_app_remove_r in Hnd; exact Hnd
                     | intros H; apply Hnin, in_or_app; left; exact H | exact Hok|].
      destruct Hr as [Hr|(f & Hf & Hin)]; [left; exact Hr|right; exists f; split; [exact Hf|]].
      exact (option_allowed us u c d m f Hc Hin). }
    destruct (IH us1 ((d, m) :: Q) _ Hu1 Hc1 (NoDup_cons _ Hnin Hnd) Hok1)
      as (Hkeys & Hoth & c' & Hc' & Hok' & Hfull').
    split; [rewrite Hkeys; exact Hk1|]; split.
    + intros u' Hne; rewrite (Hoth u' Hne); unfold us1; apply lookup_users_set_other; exact Hne.
    + exists c'; split; [exact Hc'|]; split.
      * rewrite <- app_assoc; exact Hok'.
      * intros Hrnd HQ k Hk; rewrite <- app_assoc in Hk; apply (Hfull' Hrnd); [|exact Hk].
        intros [d' m'] [E|E].
        -- injection E as <- <-; simpl; rewrite ballot_set_at; exact (Hfull (Hrnd d m)).
        -- simpl; rewrite ballot_set_other; [exact (HQ _ E)|].
           intros E'; rewrite E' in E; apply Hnin, in_or_app; left; exact E.
Qed.

Lemma fold_days_meals {A : Type} (F : A -> day -> meal -> A) (a : A) :
  fold_left (fun a d => fold_left (fun a m => F a d m) meals a) days a =
  fold_left (fun a k => F a (fst k) (snd k)) slot_order a.
Proof. reflexivity. Qed.

Lemma quickFill_user (rnd : string -> day -> meal -> nat -> nat) (u : string) (us : users_t) :
  In u (map fst us) ->
  let us' := fold_left (fun us d => fold_left (fun us m => quickFillSlot rnd u us d m) meals us) days us in
  map fst us' = map fst us /\
  (forall u', u' <> u -> lookup_user us' u' = lookup_user us u') /\
  exists c', lookup_user us' u = Some c' /\ ballot_ok c' /\
    ((forall d m n, 0 < n -> rnd u d m n < n) -> forall d m, c' d m <> None).
Proof.
  intros Hu; cbv zeta.
  pose proof (fold_days_meals (fun us d m => quickFillSlot rnd u us d m) us) as E;
    cbv beta in E; rewrite E; clear E.
  destruct (lookup_user us u) as [c|] eqn:Hc; [|apply lookup_user_keys in Hc; contradiction].
  destruct (quickFill_pass rnd u slot_order us [] c Hu Hc
              ltac:(rewrite app_nil_l; exact NoDup_slot_order)
              ltac:(split; [intros k1 k2 f [] | intros f; apply Nat.le_0_l]))
    as (Hk & Ho & c' & Hc' & Hok & Hfull).
  split; [exact Hk|]; split; [exact Ho|]; exists c'; split; [exact Hc'|]; split.
  - apply (ok_on_full _ (rev slot_order ++ [])); [|exact Hok].
    intros [d m]; rewrite app_nil_r; apply in_rev; rewrite rev_involutive; apply in_slot_order.
  - intros Hrnd d m; apply (Hfull Hrnd (fun k H => match H with end) (d, m)).
    rewrite app_nil_r; apply in_rev; rewrite rev_involutive; apply in_slot_order.
Qed.

Section UserLoop.
Variable P : string -> ballot -> Prop.
Variable step : users_t -> string -> users_t.
Hypothesis Hstep : forall us u, In u (map fst us) ->
  map fst (step us u) = map fst us /\
  (forall u', u' <> u -> lookup_user (step us u) u' = lookup_user us u') /\
  exists c, lookup_user (step us u) u = Some c /\ P u c.

Lemma fold_users (names : list string) :
  forall us, (forall n, In n names -> In n (map fst us)) ->
  map fst (fold_left step names us) = map fst us /\
  (forall n, ~ In n names -> lookup_user (fold_left step names us) n = lookup_user us n) /\
  (forall n, In n names -> exists c, lookup_user (fold_left step names us) n = Some c /\ P n c).
Proof.
  induction names as [|n names IH]; intros us Hin; cbn [fold_left].
  - split; [reflexivity|]; split; [reflexivity|intros n []].
  - destruct (Hstep us n (Hin n (or_introl eq_refl))) as (Hk1 & Ho1 & c1 & Hc1 & Hp1).
    destruct (IH (step us n)) as (Hk & Ho & Hp).
    { intros n' H; rewrite Hk1; apply Hin; right; exact H. }
    split; [rewrite Hk; exact Hk1|]; split.
    + intros n' Hn'; rewrite (Ho n' (fun H => Hn' (or_intror H))).
      apply Ho1; intros E; apply Hn'; left; symmetry; exact E.
    + intros n' [<-|Hn'].
      * destruct (in_dec string_dec n names) as [Hr|Hr]; [exact (Hp n Hr)|].
        rewrite (Ho n Hr); exists c1; auto.
      * exact (Hp n' Hn').
Qed.
End UserLoop.

Lemma quickFillRandom_spec (rnd : string -> day -> meal -> nat -> nat) (us : users_t) :
  map fst (quickFillRandom rnd us) = map fst us /\
  (forall n, In n (map fst us) -> exists c, lookup_user (quickFillRandom rnd us) n = Some c /\
     ballot_ok c /\ ((forall d m k, 0 < k -> rnd n d m k < k) -> forall d m, c d m <> None)).
Proof.
  destruct (fold_users
     (fun n c => ballot_ok c /\ ((forall d m k, 0 < k -> rnd n d m k < k) -> forall d m, c d m <> None))
     (fun us userName => fold_left (fun us d =>
        fold_left (fun us m => quickFillSlot rnd userName us d m) meals us) days us)
     (fun us u Hu => match quickFill_user rnd u us Hu with
                     | conj Hk (conj Ho (ex_intro _ c (conj Hc (conj Hok Hf)))) =>
                         conj Hk (conj Ho (ex_intro _ c (conj Hc (conj Hok Hf)))) end)
     (map fst us) us (fun n H => H)) as (Hk & _ & Hp).
  split; [exact Hk | exact Hp].
Qed.

(** ** Users and the page state *)

Lemma ballot_ok_empty : ballot_ok empty_ballot.
Proof.
  split; [intros k1 k2 f _ E; discriminate|].
  intros f; unfold ballot_count; rewrite (filter_ext _ (fun _ => false)) by reflexivity.
  rewrite filter_false; simpl; lia.
Qed.

Lemma keys_users_remove (us : users_t) (key : string) :
  map fst (users_remove us key) = filter (fun n => negb (String.eqb n key)) (map fst us).
Proof.
  induction us as [|[n b] us IH]; simpl; [reflexivity|].
  destruct (negb (String.eqb n key)); simpl; rewrite IH; reflexivity.
Qed.

Lemma In_users_remove (us : users_t) (key u : string) (b : ballot) :
  In (u, b) (users_remove us key) <-> In (u, b) us /\ u <> key.
Proof.
  unfold users_remove; rewrite filter_In; simpl.
  rewrite negb_true_iff, String.eqb_neq; tauto.
Qed.

Lemma users_remove_nonempty (us : users_t) (key : string) :
  NoDup (map fst us) -> 1 < List.length us -> users_remove us key <> [].
Proof.
  intros Hnd Hl E.
  assert (Hall : incl (map fst us) [key]).
  { intros n Hn; left.
    destruct (String.eqb n key) eqn:Ek; [apply String.eqb_eq in Ek; symmetry; exact Ek|].
    assert (Hr : In n (map fst (users_remove us key))).
    { rewrite keys_users_remove; apply filter_In; rewrite Ek; auto. }
    rewrite E in Hr; destruct Hr. }
  pose proof (NoDup_incl_length Hnd Hall) as H; rewrite length_map in H; simpl in H; lia.
Qed.

Lemma NoDup_keys_users_set (us : users_t) (k : string) (v : ballot) :
  NoDup (map fst us) -> NoDup (map fst (users_set us k v)).
Proof.
  intros Hnd; destruct (in_dec string_dec k (map fst us)) as [H|H].
  - rewrite keys_users_set_in by exact H; exact Hnd.
  - rewrite users_set_notin by exact H; rewrite map_app; simpl.
    apply NoDup_app; [exact Hnd | repeat constructor; simpl; tauto |].
    intros x Hx [<-|[]]; contradiction.
Qed.

Lemma keys_users_set_incl (us : users_t) (k u : string) (v : ballot) :
  In u (map fst us) -> In u (map fst (users_set us k v)).
Proof.
  intros Hu; destruct (in_dec string_dec k (map fst us)) as [H|H].
  - rewrite keys_users_set_in by exact H; exact Hu.
  - rewrite users_set_notin by exact H; rewrite map_app; apply in_or_app; left; exact Hu.
Qed.

Lemma ui_ok_init : ui_ok ui_init.
Proof.
  split; [|split; [discriminate|split]].
  - vm_compute.
    repeat (apply NoDup_cons; [simpl; intros H; repeat destruct H as [H|H]; try discriminate; contradiction|]).
    apply NoDup_nil.
  - exists "User 1"; split; [reflexivity|]; simpl; left; reflexivity.
  - intros u b H; unfold ui_init, initializeUsers in H; simpl in H.
    repeat destruct H as [H|H]; try (injection H as _ <-; exact ballot_ok_empty); destruct H.
Qed.

Lemma ui_step_ok (s s' : ui_state) : ui_step s s' -> ui_ok s -> ui_ok s'.
Proof.
  intros Hs (Hnd & Hne & (u0 & Hsel & Hu0) & Hb); destruct Hs; unfold ui_ok; cbn [ui_users ui_selected] in *.
  - split; [exact Hnd|]; split; [exact Hne|]; split; [exists u; auto | exact Hb].
  - unfold updateUserSelection in H0.
    destruct (lookup_user us u) as [b|] eqn:Hl; [|discriminate]; injection H0 as <-.
    injection Hsel as ->.
    assert (Hk : map fst (users_set us u0 (ballot_set b d m v)) = map fst us)
      by (apply keys_users_set_in; exact Hu0).
    split; [rewrite Hk; exact Hnd|]; split.
    { intros E; rewrite E in Hk; simpl in Hk.
      rewrite <- Hk in Hu0; destruct Hu0. }
    split; [exists u0; split; [reflexivity|]; rewrite Hk; exact Hu0|].
    intros u' b' Hin; apply In_users_set in Hin; destruct Hin as [[-> ->]|Hin]; [|exact (Hb _ _ Hin)].
    apply ballot_ok_set; [exact (Hb _ _ (lookup_user_In _ _ _ Hl))|].
    destruct H as [->|(f & -> & Hf)]; [left; reflexivity|].
    right; exists f; split; [reflexivity|]; exact (option_allowed us u0 b d m f Hl Hf).
  - unfold addNewUser; split; [apply NoDup_keys_users_set; exact Hnd|]; split.
    { destruct (in_dec string_dec (user_name (List.length us + 1)) (map fst us)) as [H|H].
      - intros E; apply (f_equal (map fst)) in E; rewrite keys_users_set_in in E by exact H.
        rewrite E in H; destruct H.
      - rewrite users_set_notin by exact H; destruct us; discriminate. }
    split; [exists u0; split; [exact Hsel | apply keys_users_set_incl; exact Hu0]|].
    intros u' b' Hin; apply In_users_set in Hin; destruct Hin as [[-> ->]|Hin];
      [exact ballot_ok_empty | exact (Hb _ _ Hin)].
  - unfold removeUser; destruct (1 <? List.length us) eqn:El; simpl.
    + apply Nat.ltb_lt in El.
      pose proof (users_remove_nonempty us u Hnd El) as Hr.
      split; [rewrite keys_users_remove; apply NoDup_filter; exact Hnd|]; split; [exact Hr|]; split.
      * subst sel; destruct (String.eqb u0 u) eqn:E.
        -- destruct (users_remove us u) as [|[n b] rest] eqn:Er; [contradiction|].
           exists n; split; [reflexivity | left; reflexivity].
        -- exists u0; split; [reflexivity|]; rewrite keys_users_remove; apply filter_In.
           rewrite E; auto.
      * intros u' b' Hin; apply In_users_remove in Hin; exact (Hb _ _ (proj1 Hin)).
    + split; [exact Hnd|]; split; [exact Hne|]; split; [exists u0; auto | exact Hb].
  - unfold resetAllVotes; destruct c; simpl; [exact ui_ok_init|].
    split; [exact Hnd|]; split; [exact Hne|]; split; [exists u0; auto | exact Hb].
  - destruct (quickFillRandom_spec rnd us) as (Hk & Hp).
    split; [rewrite Hk; exact Hnd|]; split.
    { intros E; rewrite E in Hk; simpl in Hk; rewrite <- Hk in Hu0; destruct Hu0. }
    split; [exists u0; split; [exact Hsel|]; rewrite Hk; exact Hu0|].
    intros u' b' Hin.
    assert (Hin' : In u' (map fst us)) by (rewrite <- Hk; apply in_map_iff; exists (u', b'); auto).
    destruct (Hp u' Hin') as (c & Hc & Hok & _).
    rewrite (In_lookup_user _ _ _ ltac:(rewrite Hk; exact Hnd) Hin) in Hc.
    injection Hc as ->; exact Hok.
Qed.

Lemma ui_reachable_ok (s : ui_state) : clos_refl_trans _ ui_step ui_init s -> ui_ok s.
Proof.
  intros H; apply clos_rt_rtn1 in H.
  induction H as [|y z Hyz _ IH]; [exact ui_ok_init | exact (ui_step_ok y z Hyz IH)].
Qed.

(** ** Statistics *)

Lemma sum_point {A : Type} (g g' : A -> nat) (L : list A) (k : A) (c : nat) :
  NoDup L -> In k L -> g k = g' k + c -> (forall x, In x L -> x <> k -> g x = g' x) ->
  list_sum (map g L) = list_sum (map g' L) + c.
Proof.
  revert k; induction L as [|x L IH]; intros k Hnd Hk Hgk Hoth; [destruct Hk|].
  inversion Hnd as [|? ? Hx HndL]; subst.
  change (list_sum (map g (x :: L))) with (g x + list_sum (map g L)).
  change (list_sum (map g' (x :: L))) with (g' x + list_sum (map g' L)).
  destruct Hk as [<-|Hk].
  - rewrite Hgk.
    rewrite (map_ext_in g g' L) by (intros y Hy; apply Hoth; [right; exact Hy | intros ->; contradiction]).
    lia.
  - rewrite (Hoth x (or_introl eq_refl)) by (intros ->; contradiction).
    rewrite (IH k HndL Hk Hgk) by (intros y Hy; apply Hoth; right; exact Hy).
    lia.
Qed.

Lemma count_one {A : Type} (p q : A -> bool) (L : list A) (k : A) :
  NoDup L -> In k L -> (forall x, p x = true <-> x = k) ->
  List.length (filter (fun x => p x && q x) L) = if q k then 1 else 0.
Proof.
  intros Hnd Hk Hp; induction L as [|x L IH]; [destruct Hk|].
  inversion Hnd as [|? ? Hx HndL]; subst.
  cbn [filter]; destruct Hk as [<-|Hk].
  - rewrite (proj2 (Hp x) eq_refl); cbn [andb].
    assert (H0 : filter (fun y => p y && q y) L = []).
    { destruct (filter (fun y => p y && q y) L) as [|y l] eqn:E; [reflexivity|].
      assert (Hy : In y (filter (fun y => p y && q y) L)) by (rewrite E; left; reflexivity).
      apply filter_In in Hy; destruct Hy as [Hy Hpq]; apply andb_true_iff in Hpq.
      destruct Hpq as [Hpy _]; apply Hp in Hpy; subst y; contradiction. }
    rewrite H0; destruct (q x); reflexivity.
  - destruct (p x) eqn:Ep; [apply Hp in Ep; subst x; contradiction|].
    cbn [andb]; exact (IH HndL Hk).
Qed.

Lemma vc_incr_at (vc : vc_t) (d d' : day) (m m' : meal) (f f' : fruit) :
  vc_incr vc d m f d' m' f' =
  vc d' m' f' + (if day_eqb d' d && meal_eqb m' m && fruit_eqb f' f then 1 else 0).
Proof. unfold vc_incr; destruct (day_eqb d' d && meal_eqb m' m && fruit_eqb f' f); lia. Qed.

Lemma ballot_fold_count (b : ballot) (L : list (day * meal)) (d : day) (m : meal) (f : fruit) :
  forall vc,
  fold_left (fun vc k => match b (fst k) (snd k) with
                         | Some g => vc_incr vc (fst k) (snd k) g | None => vc end) L vc d m f =
  vc d m f + List.length (filter (fun k => day_eqb d (fst k) && meal_eqb m (snd k)
                                           && fruit_opt_eqb f (b (fst k) (snd k))) L).
Proof.
  induction L as [|k L IH]; intros vc; cbn [fold_left filter Datatypes.length]; [lia|].
  rewrite IH.
  destruct (b (fst k) (snd k)) as [g|]; cbn [fruit_opt_eqb].
  - rewrite vc_incr_at.
    destruct (day_eqb d (fst k) && meal_eqb m (snd k) && fruit_eqb f g); cbn [Datatypes.length]; lia.
  - rewrite andb_false_r; lia.
Qed.

Lemma filter_one_slot (q : day * meal -> bool) (d : day) (m : meal) :
  List.length (filter (fun k => day_eqb d (fst k) && meal_eqb m (snd k) && q k) slot_order) =
  if q (d, m) then 1 else 0.
Proof.
  pose proof (count_one (fun k => day_eqb d (fst k) && meal_eqb m (snd k)) q slot_order (d, m)
                NoDup_slot_order (in_slot_order d m)) as H.
  cbv beta in H; apply H.
  intros [d' m']; simpl; rewrite andb_true_iff, day_eqb_spec, meal_eqb_spec.
  split; [intros [-> ->]; reflexivity | intros E; injection E as -> ->; auto].
Qed.

Lemma length_if_cons {A : Type} (c : bool) (x : A) (l : list A) :
  List.length (if c then x :: l else l) = (if c then 1 else 0) + List.length l.
Proof. destruct c; reflexivity. Qed.

Lemma countVotes_users (us : users_t) : forall (vc : vc_t) d m f,
  fold_left (fun vc (u : string * ballot) =>
    fold_left (fun vc d =>
      fold_left (fun vc m =>
        match snd u d m with
        | Some f => vc_incr vc d m f
        | None => vc
        end) meals vc) days vc) us vc d m f =
  vc d m f + List.length (filter (fun u => fruit_opt_eqb f (snd u d m)) us).
Proof.
  induction us as [|u us IH]; intros vc d m f; cbn [fold_left filter Datatypes.length]; [lia|].
  rewrite IH.
  pose proof (fold_days_meals (fun vc d m => match snd u d m with
                                             | Some f => vc_incr vc d m f | None => vc end) vc) as E.
  cbv beta in E; rewrite E; clear E.
  rewrite ballot_fold_count.
  pose proof (filter_one_slot (fun k => fruit_opt_eqb f (snd u (fst k) (snd k))) d m) as E.
  cbv beta in E; rewrite E; clear E; cbn [fst snd].
  rewrite length_if_cons, Nat.add_assoc; reflexivity.
Qed.

Lemma countVotes_count (us : users_t) (d : day) (m : meal) (f : fruit) :
  countVotes us d m f = List.length (filter (fun u => fruit_opt_eqb f (snd u d m)) us).
Proof. unfold countVotes; rewrite countVotes_users; reflexivity. Qed.

Lemma list_sum_nil : list_sum [] = 0.
Proof. reflexivity. Qed.

Lemma list_sum_cons (x : nat) (l : list nat) : list_sum (x :: l) = x + list_sum l.
Proof. reflexivity. Qed.

Lemma slot_refl (d : day) (m : meal) : day_eqb d d && meal_eqb m m = true.
Proof. destruct d, m; reflexivity. Qed.

Lemma vc_total_incr (vc : vc_t) (d : day) (m : meal) (f : fruit) :
  vc_total (vc_incr vc d m f) = vc_total vc + 1.
Proof.
  unfold vc_total.
  apply (sum_point _ _ slot_order (d, m) 1 NoDup_slot_order (in_slot_order d m)).
  - cbv beta; cbn [fst snd].
    apply (sum_point _ _ fruits f 1 NoDup_fruits (in_fruits f)).
    + rewrite vc_incr_at, slot_refl, fruit_eqb_refl; reflexivity.
    + intros g _ Hg; rewrite vc_incr_at.
      destruct (fruit_eqb g f) eqn:E; [apply fruit_eqb_spec in E; contradiction|].
      rewrite andb_false_r; lia.
  - intros k _ Hk; cbv beta; f_equal; apply map_ext; intros g; rewrite vc_incr_at.
    destruct (day_eqb (fst k) d && meal_eqb (snd k) m) eqn:E; [apply slot_eqb_spec in E; contradiction|].
    cbn [andb]; lia.
Qed.

Lemma ballot_fold_total (b : ballot) (L : list (day * meal)) : forall vc,
  vc_total (fold_left (fun vc k => match b (fst k) (snd k) with
                                   | Some g => vc_incr vc (fst k) (snd k) g | None => vc end) L vc) =
  vc_total vc + List.length (filter (fun k => match b (fst k) (snd k) with
                                              | Some _ => true | None => false end) L).
Proof.
  induction L as [|k L IH]; intros vc; cbn [fold_left filter Datatypes.length]; [lia|].
  rewrite IH, length_if_cons.
  destruct (b (fst k) (snd k)); [rewrite vc_total_incr|]; lia.
Qed.

Lemma countVotes_total_users (us : users_t) : forall vc,
  vc_total (fold_left (fun vc (u : string * ballot) =>
    fold_left (fun vc d =>
      fold_left (fun vc m =>
        match snd u d m with
        | Some f => vc_incr vc d m f
        | None => vc
        end) meals vc) days vc) us vc) =
  vc_total vc + list_sum (map (fun u => List.length (filter (fun k =>
    match snd u (fst k) (snd k) with Some _ => true | None => false end) slot_order)) us).
Proof.
  induction us as [|u us IH]; intros vc; cbn [fold_left map]; rewrite ?list_sum_nil, ?list_sum_cons; [lia|].
  rewrite IH.
  pose proof (fold_days_meals (fun vc d m => match snd u d m with
                                             | Some f => vc_incr vc d m f | None => vc end) vc) as E.
  cbv beta in E; rewrite E; clear E.
  rewrite ballot_fold_total, Nat.add_assoc; reflexivity.
Qed.

Lemma getTotalVotes_users (us : users_t) : forall t,
  fold_left (fun total (user : string * ballot) =>
    fold_left (fun total d =>
      fold_left (fun total m =>
        match snd user d m with Some _ => S total | None => total end) meals total) days total)
    us t =
  t + list_sum (map (fun u => List.length (filter (fun k =>
    match snd u (fst k) (snd k) with Some _ => true | None => false end) slot_order)) us).
Proof.
  induction us as [|u us IH]; intros t; cbn [fold_left map]; rewrite ?list_sum_nil, ?list_sum_cons; [lia|].
  rewrite IH.
  pose proof (fold_days_meals (fun t d m => match snd u d m with
                                            | Some _ => S t | None => t end) t) as E.
  cbv beta in E; rewrite E; clear E.
  assert (Hs : forall L t0, fold_left (fun t k => match snd u (fst k) (snd k) with
                                                  | Some _ => S t | None => t end) L t0 =
                t0 + List.length (filter (fun k => match snd u (fst k) (snd k) with
                                                   | Some _ => true | None => false end) L)).
  { induction L as [|k L IHL]; intros t0; cbn [fold_left filter Datatypes.length]; [lia|].
    rewrite IHL, length_if_cons; destruct (snd u (fst k) (snd k)); lia. }
  rewrite Hs, Nat.add_assoc; reflexivity.
Qed.

Lemma getTotalVotes_count (us : users_t) :
  getTotalVotes us = list_sum (map (fun u => List.length (filter (fun k =>
    match snd u (fst k) (snd k) with Some _ => true | None => false end) slot_order)) us) /\
  getTotalVotes us = vc_total (countVotes us).
Proof.
  unfold getTotalVotes, countVotes; rewrite getTotalVotes_users, countVotes_total_users.
  split; reflexivity.
Qed.

Lemma vc_on_plan_incr (pf : day -> meal -> option fruit) (vc : vc_t) (d : day) (m : meal) (f : fruit) :
  vc_on_plan pf (vc_incr vc d m f) = vc_on_plan pf vc + (if fruit_opt_eqb f (pf d m) then 1 else 0).
Proof.
  unfold vc_on_plan.
  apply (sum_point _ _ slot_order (d, m) _ NoDup_slot_order (in_slot_order d m)).
  - cbv beta; cbn [fst snd].
    destruct (pf d m) as [g|]; cbn [fruit_opt_eqb]; [|reflexivity].
    rewrite vc_incr_at, slot_refl; cbn [andb].
    unfold fruit_eqb; rewrite Nat.eqb_sym; reflexivity.
  - intros k _ Hk; cbv beta; destruct (pf (fst k) (snd k)) as [g|]; [|reflexivity].
    rewrite vc_incr_at.
    destruct (day_eqb (fst k) d && meal_eqb (snd k) m) eqn:E; [apply slot_eqb_spec in E; contradiction|].
    cbn [andb]; lia.
Qed.

Lemma ballot_fold_plan (pf : day -> meal -> option fruit) (b : ballot) (L : list (day * meal)) :
  forall vc,
  vc_on_plan pf (fold_left (fun vc k => match b (fst k) (snd k) with
                                   | Some g => vc_incr vc (fst k) (snd k) g | None => vc end) L vc) =
  vc_on_plan pf vc + List.length (filter (fun k => match b (fst k) (snd k) with
                  | Some v => fruit_opt_eqb v (pf (fst k) (snd k)) | None => false end) L).
Proof.
  induction L as [|k L IH]; intros vc; cbn [fold_left filter Datatypes.length]; [lia|].
  rewrite IH, length_if_cons.
  destruct (b (fst k) (snd k)); [rewrite vc_on_plan_incr|]; lia.
Qed.

Lemma countVotes_plan_users (pf : day -> meal -> option fruit) (us : users_t) : forall vc,
  vc_on_plan pf (fold_left (fun vc (u : string * ballot) =>
    fold_left (fun vc d =>
      fold_left (fun vc m =>
        match snd u d m with
        | Some f => vc_incr vc d m f
        | None => vc
        end) meals vc) days vc) us vc) =
  vc_on_plan pf vc + list_sum (map (fun u => List.length (filter (fun k =>
    match snd u (fst k) (snd k) with
    | Some v => fruit_opt_eqb v (pf (fst k) (snd k)) | None => false end) slot_order)) us).
Proof.
  induction us as [|u us IH]; intros vc; cbn [fold_left map]; rewrite ?list_sum_nil, ?list_sum_cons; [lia|].
  rewrite IH.
  pose proof (fold_days_meals (fun vc d m => match snd u d m with
                                             | Some f => vc_incr vc d m f | None => vc end) vc) as E.
  cbv beta in E; rewrite E; clear E.
  rewrite ballot_fold_plan, Nat.add_assoc; reflexivity.
Qed.

Lemma vc_on_plan_zero (pf : day -> meal -> option fruit) : vc_on_plan pf (fun _ _ _ => 0) = 0.
Proof.
  unfold vc_on_plan.
  rewrite (map_ext _ (fun _ => 0)) by (intros k; destruct (pf (fst k) (snd k)); reflexivity).
  reflexivity.
Qed.

Lemma satisfaction_users (p : plan_t) (us : users_t) : forall t s,
  fold_left (fun (acc : nat * nat) (user : string * ballot) =>
    fold_left (fun acc d =>
      fold_left (fun (acc : nat * nat) m =>
        let '(totalPossibleVotes, satisfiedVotes) := acc in
        match snd user d m with
        | Some userVote =>
            let finalSelection := plan_fruit p d m in
            (S totalPossibleVotes,
             if fruit_opt_eqb userVote finalSelection then S satisfiedVotes else satisfiedVotes)
        | None => (totalPossibleVotes, satisfiedVotes)
        end) meals acc) days acc) us (t, s) =
  (t + list_sum (map (fun u => List.length (filter (fun k =>
         match snd u (fst k) (snd k) with Some _ => true | None => false end) slot_order)) us),
   s + list_sum (map (fun u => List.length (filter (fun k =>
         match snd u (fst k) (snd k) with
         | Some v => fruit_opt_eqb v (plan_fruit p (fst k) (snd k)) | None => false end) slot_order)) us)).
Proof.
  induction us as [|u us IH]; intros t s; cbn [fold_left map]; rewrite ?list_sum_nil, ?list_sum_cons;
    [f_equal; lia|].
  pose proof (fold_days_meals (fun (acc : nat * nat) d m =>
        let '(totalPossibleVotes, satisfiedVotes) := acc in
        match snd u d m with
        | Some userVote =>
            let finalSelection := plan_fruit p d m in
            (S totalPossibleVotes,
             if fruit_opt_eqb userVote finalSelection then S satisfiedVotes else satisfiedVotes)
        | None => (totalPossibleVotes, satisfiedVotes)
        end) (t, s)) as E.
  cbv beta zeta in E; rewrite E; clear E.
  assert (Hs : forall L t0 s0,
    fold_left (fun (acc : nat * nat) k =>
        let '(totalPossibleVotes, satisfiedVotes) := acc in
        match snd u (fst k) (snd k) with
        | Some userVote =>
            (S totalPossibleVotes,
             if fruit_opt_eqb userVote (plan_fruit p (fst k) (snd k))
             then S satisfiedVotes else satisfiedVotes)
        | None => (totalPossibleVotes, satisfiedVotes)
        end) L (t0, s0) =
    (t0 + List.length (filter (fun k =>
            match snd u (fst k) (snd k) with Some _ => true | None => false end) L),
     s0 + List.length (filter (fun k =>
            match snd u (fst k) (snd k) with
            | Some v => fruit_opt_eqb v (plan_fruit p (fst k) (snd k)) | None => false end) L))).
  { induction L as [|k L IHL]; intros t0 s0; cbn [fold_left filter Datatypes.length]; [f_equal; lia|].
    destruct (snd u (fst k) (snd k)) as [v|]; cbn zeta iota.
    - rewrite IHL, !length_if_cons; cbn iota.
      destruct (fruit_opt_eqb v (plan_fruit p (fst k) (snd k))); cbn [Datatypes.length]; f_equal; lia.
    - rewrite IHL, ?length_if_cons; f_equal; lia. }
  rewrite Hs, IH; f_equal; rewrite Nat.add_assoc; reflexivity.
Qed.

Lemma filter_len_mono {A : Type} (p q : A -> bool) (l : list A) :
  (forall x, p x = true -> q x = true) ->
  List.length (filter p l) <= List.length (filter q l).
Proof.
  intros H; induction l as [|x l IH]; cbn [filter Datatypes.length]; [lia|].
  rewrite !length_if_cons; destruct (p x) eqn:E; [rewrite (H x E)|destruct (q x)]; lia.
Qed.

Lemma list_sum_map_le {A : Type} (g h : A -> nat) (l : list A) :
  (forall x, g x <= h x) -> list_sum (map g l) <= list_sum (map h l).
Proof.
  intros H; induction l as [|x l IH]; cbn [map]; rewrite ?list_sum_nil, ?list_sum_cons; [lia|].
  specialize (H x); lia.
Qed.

Lemma satisfactionCounts_spec (us : users_t) (p : plan_t) :
  fst (satisfactionCounts us p) = getTotalVotes us /\
  snd (satisfactionCounts us p) = vc_on_plan (plan_fruit p) (countVotes us) /\
  snd (satisfactionCounts us p) <= fst (satisfactionCounts us p).
Proof.
  unfold satisfactionCounts; rewrite satisfaction_users; cbn [fst snd].
  destruct (getTotalVotes_count us) as [Ht _]; rewrite Ht.
  unfold countVotes; rewrite countVotes_plan_users, vc_on_plan_zero.
  split; [reflexivity|]; split; [reflexivity|].
  rewrite !Nat.add_0_l; apply list_sum_map_le; intros u; apply filter_len_mono.
  intros k; destruct (snd u (fst k) (snd k)); [reflexivity | discriminate].
Qed.

(** ** The entries of the plan *)

Lemma processMeal_entry (mv : list (fruit * nat)) (n : nat) (d : day) (pd : option day)
    (s : result) (m : meal) :
  exists a,
    plan (processMeal mv n d pd s m) = plan s ++ [((d, m), a)] /\
    a_totalUsers a = n /\
    a_votes a = match a_fruit a with Some f => votes_of mv f | None => 0 end.
Proof.
  unfold processMeal.
  destruct (selectCandidate (plan s) (fruitUsage s) d pd m (sortedCandidates mv) (violations s))
    as [found vs] eqn:E.
  destruct found as [[f r]|].
  - eexists; simpl; split; [reflexivity|]; split; reflexivity.
  - destruct (sortedCandidates mv) as [|[f v] rest];
      eexists; simpl; (split; [reflexivity|]; split; reflexivity).
Qed.

Lemma fold_plan_entries (vc : vc_t) (n : nat) (L : list (day * meal)) : forall s,
  (forall k a, In (k, a) (plan s) -> a_totalUsers a = n /\
     a_votes a = match a_fruit a with Some f => vc (fst k) (snd k) f | None => 0 end) ->
  forall k a, In (k, a) (plan (fold_left (slotStep vc n) L s)) -> a_totalUsers a = n /\
     a_votes a = match a_fruit a with Some f => vc (fst k) (snd k) f | None => 0 end.
Proof.
  induction L as [|[d m] L IH]; intros s Hs; cbn [fold_left]; [exact Hs|].
  apply IH; intros k a Hin.
  destruct (processMeal_entry (mealVotesOf vc d m) n d (prevDay d) s m) as (a0 & Hp & Ht & Hv).
  unfold slotStep in Hin; cbn [fst snd] in Hin; rewrite Hp in Hin.
  apply in_app_or in Hin; destruct Hin as [Hin|[E|[]]]; [exact (Hs _ _ Hin)|].
  injection E as <- <-; split; [exact Ht|]; rewrite Hv; cbn [fst snd].
  destruct (a_fruit a0); [apply votes_of_mealVotesOf | reflexivity].
Qed.

Lemma findOptimal_entries (us : users_t) (d : day) (m : meal) (a : assignment) :
  plan_lookup (plan (findOptimalPlanWithConstraints us)) d m = Some a ->
  a_totalUsers a = List.length us /\
  a_votes a = match a_fruit a with Some f => countVotes us d m f | None => 0 end.
Proof.
  intros H; apply plan_lookup_In in H.
  unfold findOptimalPlanWithConstraints in H; rewrite planDays_slots in H.
  exact (fold_plan_entries _ _ slot_order init_result (fun k a H => match H with end) _ _ H).
Qed.

(** ** The chart *)

Lemma chart_fold (p : plan_t) (f : fruit) (D : list day) : forall l0 d0,
  fold_left (fun (acc : nat * nat) d =>
    let '(lunchCount, dinnerCount) := acc in
    (if fruit_opt_eqb f (plan_fruit p d Lunch) then S lunchCount else lunchCount,
     if fruit_opt_eqb f (plan_fruit p d Dinner) then S dinnerCount else dinnerCount)) D (l0, d0) =
  (l0 + List.length (filter (fun d => fruit_opt_eqb f (plan_fruit p d Lunch)) D),
   d0 + List.length (filter (fun d => fruit_opt_eqb f (plan_fruit p d Dinner)) D)).
Proof.
  induction D as [|d D IH]; intros l0 d0; cbn [fold_left filter Datatypes.length]; [f_equal; lia|].
  rewrite IH, !length_if_cons.
  destruct (fruit_opt_eqb f (plan_fruit p d Lunch)), (fruit_opt_eqb f (plan_fruit p d Dinner));
    f_equal; lia.
Qed.

Lemma chart_slots (p : plan_t) (f : fruit) (D : list day) :
  List.length (filter (fun d => fruit_opt_eqb f (plan_fruit p d Lunch)) D) +
  List.length (filter (fun d => fruit_opt_eqb f (plan_fruit p d Dinner)) D) =
  List.length (filter (fun k => fruit_opt_eqb f (plan_fruit p (fst k) (snd k)))
                 (flat_map (fun d => map (fun m => (d, m)) meals) D)).
Proof.
  induction D as [|d D IH]; [reflexivity|].
  cbn [flat_map]; rewrite filter_app, length_app, <- IH.
  cbn [filter map meals fst snd]; rewrite !length_if_cons; cbn [Datatypes.length].
  destruct (fruit_opt_eqb f (plan_fruit p d Lunch)), (fruit_opt_eqb f (plan_fruit p d Dinner)); lia.
Qed.

Lemma plan_count_keys (p : plan_t) (f : fruit) :
  NoDup (map fst p) ->
  List.length (filter (fun k => fruit_opt_eqb f (plan_fruit p (fst k) (snd k))) (map fst p)) =
  plan_count p f.
Proof.
  induction p as [|[[d m] a] p IH]; intros Hnd; [reflexivity|].
  inversion Hnd as [|? ? Hx Hnd']; subst.
  unfold plan_count; cbn [map filter fst snd].
  assert (Hh : plan_fruit (((d, m), a) :: p) d m = a_fruit a)
    by (unfold plan_fruit; cbn [plan_lookup]; rewrite slot_refl; reflexivity).
  rewrite Hh, !length_if_cons.
  change (List.length (filter (fun e : day * meal * assignment => fruit_opt_eqb f (a_fruit (snd e))) p))
    with (plan_count p f).
  rewrite <- (IH Hnd').
  f_equal; f_equal; apply filter_ext_in; intros [d' m'] Hk; cbn [fst snd].
  unfold plan_fruit; cbn [plan_lookup].
  destruct (day_eqb d d' && meal_eqb m m') eqn:E; [|reflexivity].
  apply andb_true_iff in E; destruct E as [E1 E2]; apply day_eqb_spec in E1; apply meal_eqb_spec in E2.
  subst; contradiction.
Qed.

Lemma map_filter_map {A B C : Type} (h : A -> B) (q : B -> bool) (g : B -> C) (l : list A) :
  map g (filter q (map h l)) = map (fun x => g (h x)) (filter (fun x => q (h x)) l).
Proof.
  induction l as [|x l IH]; [reflexivity|]; cbn [map filter].
  destruct (q (h x)); cbn [map]; rewrite IH; reflexivity.
Qed.

Lemma getChartData_counts (p : plan_t) :
  getChartData p =
  filter (fun item => 0 <? c_total item)
    (map (fun f =>
       let lunchCount := List.length (filter (fun d => fruit_opt_eqb f (plan_fruit p d Lunch)) days) in
       let dinnerCount := List.length (filter (fun d => fruit_opt_eqb f (plan_fruit p d Dinner)) days) in
       mkChartItem (substring 0 6 (fruit_name f)) lunchCount dinnerCount
                   (lunchCount + dinnerCount)) fruits).
Proof.
  unfold getChartData; f_equal; apply map_ext; intros f.
  rewrite chart_fold; reflexivity.
Qed.

Lemma getChartData_usage (us : users_t) :
  let r := findOptimalPlanWithConstraints us in
  map (fun item => (c_fruit item, c_total item)) (getChartData (plan r)) =
  map (fun f => (substring 0 6 (fruit_name f), fruitUsage r f))
      (filter (fun f => 0 <? fruitUsage r f) fruits).
Proof.
  intros r.
  destruct (findOptimal_inv us) as [Hk [Hu _]]; fold r in Hk, Hu.
  assert (Hc : forall f, List.length (filter (fun d => fruit_opt_eqb f (plan_fruit (plan r) d Lunch)) days) +
                         List.length (filter (fun d => fruit_opt_eqb f (plan_fruit (plan r) d Dinner)) days) =
                         fruitUsage r f).
  { intros f; rewrite chart_slots; fold slot_order; rewrite <- Hk, plan_count_keys, Hu; [reflexivity|].
    rewrite Hk; exact NoDup_slot_order. }
  rewrite getChartData_counts, map_filter_map; cbv zeta; cbn [c_fruit c_total].
  rewrite (filter_ext _ (fun f => 0 <? fruitUsage r f)) by (intros f; rewrite Hc; reflexivity).
  apply map_ext; intros f; rewrite Hc; reflexivity.
Qed.

(** ** What the options of a dropdown depend on *)



Lemma adjacent_day_neq (d d' : day) : adjacent_day d d' -> d' <> d.
Proof.
  intros [H|H] ->; apply prevDay_index in H; lia.
Qed.

Lemma getAvailableFruits_ext (us us' : users_t) (u : string) (d : day) (m : meal) :
  (forall d' m', (d', m') <> (d, m) -> user_sel us' u d' m' = user_sel us u d' m') ->
  getAvailableFruits us' u d m = getAvailableFruits us u d m.
Proof.
  intros H; apply filter_fruits_ext; [apply getAvailableFruits_filter | apply getAvailableFruits_filter|].
  intros f; rewrite !availableFruits_iff.
  rewrite (H d (other_meal m)) by (destruct m; discriminate).
  assert (Hc : own_count us' u d m f = own_count us u d m f).
  { unfold own_count; f_equal; apply filter_ext; intros [d' m']; cbn [fst snd].
    destruct (day_eqb d' d && meal_eqb m' m) eqn:E; [reflexivity|]; cbn [negb andb].
    rewrite H; [reflexivity|]; intros Ek; apply (slot_eqb_spec (d', m')) in Ek; cbn [fst snd] in Ek; congruence. }
  rewrite Hc.
  assert (Ha : forall d' m', adjacent_day d d' -> user_sel us' u d' m' = user_sel us u d' m').
  { intros d' m' Had; apply H; intros E; injection E as E _; exact (adjacent_day_neq d d' Had E). }
  split; intros (H1 & H2 & H3); (split; [exact H1|]; split; [|exact H3]);
    intros d' m' Had; [rewrite <- (Ha d' m' Had) | rewrite (Ha d' m' Had)]; exact (H2 d' m' Had).
Qed.

Lemma ballot_count_split (b : ballot) (d : day) (m : meal) (f : fruit) :
  ballot_count b f =
  (if fruit_opt_eqb f (b d m) then 1 else 0) +
  List.length (filter (fun k => negb (day_eqb (fst k) d && meal_eqb (snd k) m)
                                && fruit_opt_eqb f (b (fst k) (snd k))) slot_order).
Proof.
  unfold ballot_count.
  rewrite (filter_split_len _ (fun k => day_eqb (fst k) d && meal_eqb (snd k) m)).
  f_equal.
  - rewrite (filter_ext _ (fun k => (day_eqb (fst k) d && meal_eqb (snd k) m) &&
                                    fruit_opt_eqb f (b (fst k) (snd k)))) by (intros k; apply andb_comm).
    pose proof (count_one (fun k => day_eqb (fst k) d && meal_eqb (snd k) m)
                  (fun k => fruit_opt_eqb f (b (fst k) (snd k))) slot_order (d, m)
                  NoDup_slot_order (in_slot_order d m)) as E.
    cbv beta in E; rewrite E; [reflexivity|].
    intros k; apply slot_eqb_spec.
  - apply f_equal, filter_ext; intros k; apply andb_comm.
Qed.

(** ** Further properties of the page *)

(** X1: every dropdown offers at least two fruits, whatever the selections
    of its user: the same-day, adjacent-day and twice-a-week rules can
    exclude at most 8 of the 10 fruits. *)
Theorem getAvailableFruits_at_least_two (us : users_t) (u : string) (d : day) (m : meal) :
  2 <= List.length (getAvailableFruits us u d m).
Proof. exact (availableFruits_length us u d m). Qed.

(** X2: for a name that is not a key of [users], the dropdown offers the
    whole catalog, in catalog order. *)
Theorem getAvailableFruits_unknown_user (us : users_t) (u : string) (d : day) (m : meal) :
  ~ In u (map fst us) -> getAvailableFruits us u d m = fruits.
Proof.
  intros Hu; apply lookup_user_keys in Hu.
  assert (Hsel : forall d' m', user_sel us u d' m' = None) by (intros; unfold user_sel; rewrite Hu; reflexivity).
  apply filter_fruits_ext; [apply getAvailableFruits_filter | exists (fun _ => true); reflexivity|].
  intros f; split; [intros _; apply in_fruits|intros _].
  apply availableFruits_iff; rewrite Hsel; split; [discriminate|]; split.
  - intros d' m' _; rewrite Hsel; discriminate.
  - unfold own_count; rewrite (filter_ext _ (fun _ => false)).
    + rewrite filter_false; cbn; lia.
    + intros k; rewrite Hsel, andb_false_r; reflexivity.
Qed.

Lemma getAvailableFruits_unknown_user_witness :
  getAvailableFruits initializeUsers "User 9" Monday Lunch = fruits.
Proof.
  apply getAvailableFruits_unknown_user.
  vm_compute; intros H; repeat destruct H as [H|H]; try discriminate; contradiction.
Defined.

(** X3: a ballot that follows the three rules always finds its current
    value among the options of its dropdown, so the [<select>] can show it. *)
Theorem current_selection_offered (us : users_t) (u : string) (b : ballot) (d : day) (m : meal)
    (f : fruit) :
  lookup_user us u = Some b -> ballot_ok b -> b d m = Some f ->
  In f (getAvailableFruits us u d m).
Proof.
  intros Hl [Hc Hn] Hb; apply availableFruits_iff.
  rewrite !(user_sel_lookup _ _ _ _ _ Hl); split; [|split].
  - apply (Hc (d, m) (d, other_meal m) f); [|exact Hb].
    split; [destruct m; discriminate | left; reflexivity].
  - intros d' m' Had; rewrite (user_sel_lookup _ _ _ _ _ Hl).
    pose proof (adjacent_day_neq d d' Had) as Hne.
    destruct Had as [Hp|Hp].
    + intros E; apply (Hc (d', m') (d, m) f); [| exact E | exact Hb].
      split; [intros E'; injection E' as E' _; contradiction | right; exact Hp].
    + apply (Hc (d, m) (d', m') f); [| exact Hb].
      split; [intros E'; injection E' as E' _; symmetry in E'; contradiction | right; exact Hp].
  - unfold own_count.
    rewrite (filter_ext _ (fun k => negb (day_eqb (fst k) d && meal_eqb (snd k) m)
                                    && fruit_opt_eqb f (b (fst k) (snd k))))
      by (intros k; rewrite (user_sel_lookup _ _ _ _ _ Hl); reflexivity).
    pose proof (Hn f) as H2; rewrite (ballot_count_split b d m f), Hb in H2.
    cbn [fruit_opt_eqb] in H2; rewrite fruit_eqb_refl in H2; lia.
Qed.

Lemma current_selection_offered_witness :
  In Apple (getAvailableFruits [("User 1", one_vote Monday Lunch Apple)] "User 1" Monday Lunch).
Proof.
  apply (current_selection_offered [("User 1", one_vote Monday Lunch Apple)] "User 1"
           (one_vote Monday Lunch Apple) Monday Lunch Apple).
  - reflexivity.
  - split.
    + intros [d1 m1] [d2 m2] g [Hne _] E1 E2; apply Hne.
      unfold one_vote in E1, E2; cbn [fst snd] in E1, E2.
      destruct (day_eqb d1 Monday && meal_eqb m1 Lunch) eqn:F1; [|discriminate].
      destruct (day_eqb d2 Monday && meal_eqb m2 Lunch) eqn:F2; [|discriminate].
      apply (slot_eqb_spec (d1, m1)) in F1; apply (slot_eqb_spec (d2, m2)) in F2; congruence.
    + intros g; destruct g; vm_compute; lia.
  - reflexivity.
Defined.

(** X4: changing the value of a dropdown never changes the options of that
    same dropdown: [getAvailableFruits] leaves the target slot out. *)
Theorem selection_keeps_own_options (us us' : users_t) (u : string) (d : day) (m : meal)
    (v : option fruit) :
  updateUserSelection us u d m v = Some us' ->
  getAvailableFruits us' u d m = getAvailableFruits us u d m.
Proof.
  unfold updateUserSelection; destruct (lookup_user us u) as [b|] eqn:Hl; [|discriminate].
  intros E; injection E as <-.
  apply getAvailableFruits_ext; intros d' m' Hne.
  rewrite (user_sel_lookup _ _ _ _ _ (lookup_users_set_same us u _)).
  rewrite (user_sel_lookup _ _ _ _ _ Hl); apply ballot_set_other; exact Hne.
Qed.

Lemma selection_keeps_own_options_witness :
  exists us', updateUserSelection initializeUsers "User 1" Monday Lunch (Some Apple) = Some us' /\
    getAvailableFruits us' "User 1" Monday Lunch =
    getAvailableFruits initializeUsers "User 1" Monday Lunch.
Proof.
  eexists; split; [reflexivity|].
  apply (selection_keeps_own_options initializeUsers _ "User 1" Monday Lunch (Some Apple)).
  reflexivity.
Defined.

(** X5: a selection made by one user never changes the options offered to
    another user: [getAvailableFruits] reads only [users[targetUser]]. *)
Theorem selection_keeps_other_users_options (us us' : users_t) (u0 u : string)
    (d0 d : day) (m0 m : meal) (v : option fruit) :
  updateUserSelection us u0 d0 m0 v = Some us' -> u <> u0 ->
  getAvailableFruits us' u d m = getAvailableFruits us u d m.
Proof.
  unfold updateUserSelection; destruct (lookup_user us u0) as [b|] eqn:Hl; [|discriminate].
  intros E Hne; injection E as <-.
  apply getAvailableFruits_ext; intros d' m' _.
  unfold user_sel; rewrite lookup_users_set_other by exact Hne; reflexivity.
Qed.

Lemma selection_keeps_other_users_options_witness :
  exists us', updateUserSelection initializeUsers "User 1" Monday Lunch (Some Apple) = Some us' /\
    "User 2" <> "User 1" /\
    getAvailableFruits us' "User 2" Tuesday Dinner =
    getAvailableFruits initializeUsers "User 2" Tuesday Dinner.
Proof.
  eexists; split; [reflexivity|]; split; [discriminate|].
  apply (selection_keeps_other_users_options initializeUsers _ "User 1" "User 2"
           Monday Tuesday Lunch Dinner (Some Apple)); [reflexivity | discriminate].
Defined.

(** X6: [updateUserSelection] on a user of the list writes exactly the one
    slot: the keys and their order are kept, the slot reads back the value
    written, and every other (user, day, meal) reads as before. *)
Theorem updateUserSelection_roundtrip (us : users_t) (u : string) (d : day) (m : meal)
    (v : option fruit) :
  In u (map fst us) ->
  exists us', updateUserSelection us u d m v = Some us' /\
    map fst us' = map fst us /\
    user_sel us' u d m = v /\
    (forall u' d' m', (u', d', m') <> (u, d, m) -> user_sel us' u' d' m' = user_sel us u' d' m').
Proof.
  intros Hu; unfold updateUserSelection.
  destruct (lookup_user us u) as [b|] eqn:Hl; [|apply lookup_user_keys in Hl; contradiction].
  eexists; split; [reflexivity|]; split; [apply keys_users_set_in; exact Hu|]; split.
  - rewrite (user_sel_lookup _ _ _ _ _ (lookup_users_set_same us u _)); apply ballot_set_at.
  - intros u' d' m' Hne.
    destruct (String.eqb u' u) eqn:E.
    + apply String.eqb_eq in E; subst u'.
      rewrite (user_sel_lookup _ _ _ _ _ (lookup_users_set_same us u _)), (user_sel_lookup _ _ _ _ _ Hl).
      apply ballot_set_other; intros E'; injection E' as -> ->; apply Hne; reflexivity.
    + apply String.eqb_neq in E; unfold user_sel; rewrite lookup_users_set_other by exact E.
      reflexivity.
Qed.

Lemma updateUserSelection_roundtrip_witness :
  exists us', updateUserSelection initializeUsers "User 2" Friday Dinner (Some Kiwi) = Some us' /\
    map fst us' = map fst initializeUsers /\
    user_sel us' "User 2" Friday Dinner = Some Kiwi /\
    (forall u' d' m', (u', d', m') <> ("User 2", Friday, Dinner) ->
       user_sel us' u' d' m' = user_sel initializeUsers u' d' m').
Proof.
  apply updateUserSelection_roundtrip; vm_compute; right; left; reflexivity.
Defined.

(** X7: picking an option the dropdown offers (or clearing it) keeps the
    user's ballot within the three rules. *)
Theorem select_offered_keeps_rules (us us' : users_t) (u : string) (b : ballot) (d : day)
    (m : meal) (v : option fruit) :
  lookup_user us u = Some b -> ballot_ok b ->
  (v = None \/ exists f, v = Some f /\ In f (getAvailableFruits us u d m)) ->
  updateUserSelection us u d m v = Some us' ->
  exists b', lookup_user us' u = Some b' /\ ballot_ok b'.
Proof.
  intros Hl Hok Hv; unfold updateUserSelection; rewrite Hl; intros E; injection E as <-.
  exists (ballot_set b d m v); split; [apply lookup_users_set_same|].
  apply ballot_ok_set; [exact Hok|].
  destruct Hv as [->|(f & -> & Hf)]; [left; reflexivity|].
  right; exists f; split; [reflexivity|]; exact (option_allowed us u b d m f Hl Hf).
Qed.

Lemma select_offered_keeps_rules_witness :
  exists us', updateUserSelection initializeUsers "User 1" Monday Lunch (Some Apple) = Some us' /\
    exists b', lookup_user us' "User 1" = Some b' /\ ballot_ok b'.
Proof.
  eexists; split; [reflexivity|].
  apply (select_offered_keeps_rules initializeUsers _ "User 1" empty_ballot Monday Lunch (Some Apple)).
  - reflexivity.
  - split; [intros k1 k2 f _ E; discriminate|].
    intros f; destruct f; vm_compute; lia.
  - right; exists Apple; split; [reflexivity | vm_compute; left; reflexivity].
  - reflexivity.
Defined.

(** X8: when the name [User <n+1>] ([n] users) is free, Add User appends a
    user with an empty ballot after the existing ones. *)
Theorem addNewUser_fresh (us : users_t) :
  ~ In (user_name (List.length us + 1)) (map fst us) ->
  addNewUser us = us ++ [(user_name (List.length us + 1), empty_ballot)].
Proof. intros H; unfold addNewUser; apply users_set_notin; exact H. Qed.

Lemma addNewUser_fresh_witness :
  addNewUser initializeUsers = initializeUsers ++ [("User 5", empty_ballot)].
Proof.
  apply addNewUser_fresh.
  vm_compute; intros H; repeat destruct H as [H|H]; try discriminate; contradiction.
Defined.

(** X9: when the name [User <n+1>] is already taken (a user was removed
    before), Add User adds no user: the keys stay the same and the user who
    has that name loses all selections. *)
Theorem addNewUser_name_taken (us : users_t) :
  In (user_name (List.length us + 1)) (map fst us) ->
  map fst (addNewUser us) = map fst us /\
  lookup_user (addNewUser us) (user_name (List.length us + 1)) = Some empty_ballot /\
  (forall n, n <> user_name (List.length us + 1) ->
     lookup_user (addNewUser us) n = lookup_user us n).
Proof.
  intros H; unfold addNewUser; split; [apply keys_users_set_in; exact H|]; split.
  - apply lookup_users_set_same.
  - intros n Hn; apply lookup_users_set_other; exact Hn.
Qed.

Lemma addNewUser_name_taken_witness :
  let us := fst (removeUser initializeUsers (Some "User 1") "User 2") in
  map fst (addNewUser us) = map fst us /\
  lookup_user (addNewUser us) "User 4" = Some empty_ballot /\
  (forall n, n <> "User 4" -> lookup_user (addNewUser us) n = lookup_user us n).
Proof.
  intros us; apply (addNewUser_name_taken us).
  vm_compute; right; right; left; reflexivity.
Defined.

(** X10: removing a user from a list of at least two distinct users drops
    exactly that key, keeps every other user with its ballot and never
    leaves the list empty; a selected user who stays remains selected, and
    when the selected user is the one removed, the selection moves to the
    first remaining user. *)
Theorem removeUser_spec (us : users_t) (sel : option string) (u : string) :
  NoDup (map fst us) -> 1 < List.length us ->
  (forall s, sel = Some s -> In s (map fst us)) ->
  map fst (fst (removeUser us sel u)) = filter (fun n => negb (String.eqb n u)) (map fst us) /\
  (forall n b, In (n, b) (fst (removeUser us sel u)) <-> In (n, b) us /\ n <> u) /\
  fst (removeUser us sel u) <> [] /\
  (forall s, sel = Some s -> s <> u ->
     snd (removeUser us sel u) = Some s /\ In s (map fst (fst (removeUser us sel u)))) /\
  (sel = Some u -> exists first rest,
     map fst (fst (removeUser us sel u)) = first :: rest /\ snd (removeUser us sel u) = Some first).
Proof.
  intros Hnd Hl Hsel; unfold removeUser.
  replace (1 <? List.length us) with true by (symmetry; apply Nat.ltb_lt; exact Hl).
  cbn [fst snd].
  pose proof (users_remove_nonempty us u Hnd Hl) as Hr.
  split; [apply keys_users_remove|]; split; [intros n b; apply In_users_remove|]; split; [exact Hr|].
  split.
  - intros s Hs Hne; pose proof (Hsel s Hs) as Hin; subst sel.
    replace (String.eqb s u) with false by (symmetry; apply String.eqb_neq; exact Hne).
    split; [reflexivity|].
    rewrite keys_users_remove; apply filter_In; split; [exact Hin|].
    replace (String.eqb s u) with false by (symmetry; apply String.eqb_neq; exact Hne); reflexivity.
  - intros ->; rewrite String.eqb_refl.
    destruct (users_remove us u) as [|[n b] rest]; [contradiction|].
    exists n, (map fst rest); split; reflexivity.
Qed.

Lemma removeUser_spec_witness :
  let r := removeUser initializeUsers (Some "User 1") "User 1" in
  map fst (fst r) = filter (fun n => negb (String.eqb n "User 1")) (map fst initializeUsers) /\
  (forall n b, In (n, b) (fst r) <-> In (n, b) initializeUsers /\ n <> "User 1") /\
  fst r <> [] /\
  (forall s, Some "User 1" = Some s -> s <> "User 1" ->
     snd r = Some s /\ In s (map fst (fst r))) /\
  (Some "User 1" = Some "User 1" -> exists first rest,
     map fst (fst r) = first :: rest /\ snd r = Some first).
Proof.
  intros r; apply removeUser_spec.
  - vm_compute.
    repeat (apply NoDup_cons; [intros H; repeat destruct H as [H|H]; try discriminate; contradiction|]).
    apply NoDup_nil.
  - vm_compute; lia.
  - intros s E; injection E as <-; vm_compute; left; reflexivity.
Defined.

(** X11: Quick Fill keeps the users and their order, and whatever the
    random draws (an index out of range stores no selection), every user's
    ballot afterwards follows the three rules. *)
Theorem quickFillRandom_keeps_rules (rnd : string -> day -> meal -> nat -> nat) (us : users_t)
    (n : string) :
  In n (map fst us) ->
  map fst (quickFillRandom rnd us) = map fst us /\
  exists c, lookup_user (quickFillRandom rnd us) n = Some c /\ ballot_ok c.
Proof.
  intros Hn; destruct (quickFillRandom_spec rnd us) as [Hk Hp].
  split; [exact Hk|]; destruct (Hp n Hn) as (c & Hc & Hok & _); exists c; auto.
Qed.

Lemma quickFillRandom_keeps_rules_witness :
  map fst (quickFillRandom (fun _ _ _ _ => 7) initializeUsers) = map fst initializeUsers /\
  exists c, lookup_user (quickFillRandom (fun _ _ _ _ => 7) initializeUsers) "User 3" = Some c /\
    ballot_ok c.
Proof.
  apply quickFillRandom_keeps_rules; vm_compute; right; right; left; reflexivity.
Defined.

(** X12: when every draw [Math.floor(Math.random() * n)] lies in [0, n),
    Quick Fill leaves no slot of any user empty. *)
Theorem quickFillRandom_fills_every_slot (rnd : string -> day -> meal -> nat -> nat)
    (us : users_t) (n : string) :
  (forall u d m k, 0 < k -> rnd u d m k < k) -> In n (map fst us) ->
  exists c, lookup_user (quickFillRandom rnd us) n = Some c /\ forall d m, c d m <> None.
Proof.
  intros Hrnd Hn; destruct (quickFillRandom_spec rnd us) as [_ Hp].
  destruct (Hp n Hn) as (c & Hc & _ & Hf); exists c; split; [exact Hc|].
  apply Hf; intros d m k; apply Hrnd.
Qed.

Lemma quickFillRandom_fills_every_slot_witness :
  exists c, lookup_user (quickFillRandom (fun _ _ _ k => k - 1) initializeUsers) "User 1" = Some c /\
    forall d m, c d m <> None.
Proof.
  apply quickFillRandom_fills_every_slot.
  - intros u d m k Hk; lia.
  - vm_compute; left; reflexivity.
Defined.

(** X13: every state the page can reach from its initial state (user
    buttons, dropdowns with their offered options, Add User, the remove
    buttons, Reset All, Quick Fill) has distinct, non-empty user keys, a
    selected user among them, and only ballots that follow the three rules. *)
Theorem reachable_states_ok (s : ui_state) :
  clos_refl_trans _ ui_step ui_init s -> ui_ok s.
Proof. exact (ui_reachable_ok s). Qed.

Lemma reachable_states_ok_witness :
  ui_ok (mkUi (quickFillRandom (fun _ _ _ _ => 0) (addNewUser initializeUsers)) (Some "User 1")).
Proof.
  apply reachable_states_ok.
  apply rt_trans with (mkUi (addNewUser initializeUsers) (Some "User 1")).
  - apply rt_step; apply step_add_user.
  - apply rt_step; apply step_quick_fill.
Defined.

(** X14: the vote table of the planner counts, for each slot and fruit,
    the entries of [users] whose selection there is that fruit. *)
Theorem countVotes_counts_users (us : users_t) (d : day) (m : meal) (f : fruit) :
  countVotes us d m f = List.length (filter (fun u => fruit_opt_eqb f (snd u d m)) us).
Proof. exact (countVotes_count us d m f). Qed.

(** X15: [getTotalVotes()] is the number of filled slots over all users,
    which is also the sum of the planner's vote table. *)
Theorem getTotalVotes_filled_slots (us : users_t) :
  getTotalVotes us = list_sum (map (fun u => List.length (filter (fun k =>
    match snd u (fst k) (snd k) with Some _ => true | None => false end) slot_order)) us) /\
  getTotalVotes us = vc_total (countVotes us).
Proof. exact (getTotalVotes_count us). Qed.

(** X16: every assignment of the plan records the number of users as
    [totalUsers] and, as [votes], the number of users who voted for its
    fruit in that slot (0 without a fruit); so [votes <= totalUsers]. *)
Theorem plan_entry_votes (us : users_t) (d : day) (m : meal) (a : assignment) :
  plan_lookup (plan (findOptimalPlanWithConstraints us)) d m = Some a ->
  a_totalUsers a = List.length us /\
  a_votes a = match a_fruit a with
              | Some f => List.length (filter (fun u => fruit_opt_eqb f (snd u d m)) us)
              | None => 0
              end /\
  a_votes a <= a_totalUsers a.
Proof.
  intros H; destruct (findOptimal_entries us d m a H) as [Ht Hv].
  assert (Hv' : a_votes a = match a_fruit a with
              | Some f => List.length (filter (fun u => fruit_opt_eqb f (snd u d m)) us)
              | None => 0 end)
    by (rewrite Hv; destruct (a_fruit a); [apply countVotes_count | reflexivity]).
  split; [exact Ht|]; split; [exact Hv'|].
  rewrite Hv', Ht; destruct (a_fruit a); [apply filter_length_le | lia].
Qed.

Lemma plan_entry_votes_witness :
  let us := [("User 1", one_vote Monday Lunch Apple); ("User 2", one_vote Monday Lunch Apple);
             ("User 3", one_vote Monday Lunch Kiwi)] in
  let a := match plan_lookup (plan (findOptimalPlanWithConstraints us)) Monday Lunch with
           | Some a => a | None => mkAssignment None 0 0 "" false end in
  a_totalUsers a = List.length us /\
  a_votes a = match a_fruit a with
              | Some f => List.length (filter (fun u => fruit_opt_eqb f (snd u Monday Lunch)) us)
              | None => 0
              end /\
  a_votes a <= a_totalUsers a.
Proof.
  intros us a; apply plan_entry_votes; vm_compute; reflexivity.
Defined.

(** X17: the two counters of [calculateSatisfactionScore()], for any plan:
    the possible votes are [getTotalVotes()], the satisfied votes are the
    votes the planner's table gives to the plan's fruits, and there are never
    more satisfied votes than possible ones (the score is at most 100). *)
Theorem satisfaction_counts (us : users_t) (p : plan_t) :
  fst (satisfactionCounts us p) = getTotalVotes us /\
  snd (satisfactionCounts us p) = vc_on_plan (plan_fruit p) (countVotes us) /\
  snd (satisfactionCounts us p) <= fst (satisfactionCounts us p).
Proof. exact (satisfactionCounts_spec us p). Qed.

(** X18: the chart lists, in catalog order, exactly the fruits the plan
    uses, each under its name cut to 6 characters and with its usage count
    as [total]. *)
Theorem chart_matches_usage (us : users_t) :
  let r := findOptimalPlanWithConstraints us in
  map (fun item => (c_fruit item, c_total item)) (getChartData (plan r)) =
  map (fun f => (substring 0 6 (fruit_name f), fruitUsage r f))
      (filter (fun f => 0 <? fruitUsage r f) fruits).
Proof. exact (getChartData_usage us). Qed.
